(** * parse_enum.py: the enum / bitflag scanners and the code emitter

    A shallow embedding of [parse_enum.py] (lib_sdlpp): the two line-oriented
    scanners [parse_enum] and [parse_bitflags], and the emitter [create_enum].

    Modelling choices.
    - Python [str] is [string]; a character is an 8-bit code point, so the
      development covers texts in the Latin-1 range.
    - [f.readlines()] is the input of the model: a scanner takes the list of
      lines of the file (each one possibly carrying its line terminator).
    - A Python exception is a value [Raise e] of the error monad [result].
    - A [dict] is an association list in insertion order; assignment to an
      existing key keeps the key's position, as Python's dict does.
    - [print] appends to an explicit standard-output text. *)

From Stdlib Require Import List Ascii String ZArith Lia Bool Arith.
From Stdlib Require Import Decimal DecimalString.
Import ListNotations.

Local Open Scope string_scope.
Local Open Scope list_scope.

(** ** Python string primitives *)

Module Py.

(** [str.isspace] on the code points below 256. *)
Definition is_space (c : ascii) : bool :=
  let n := nat_of_ascii c in
  (((9 <=? n) && (n <=? 13)) || ((28 <=? n) && (n <=? 32))
   || (n =? 133) || (n =? 160))%nat.

Definition is_empty (s : string) : bool :=
  match s with EmptyString => true | String _ _ => false end.

(** [s.lstrip()], [s.rstrip()], [s.strip()]. *)
Fixpoint lstrip (s : string) : string :=
  match s with
  | EmptyString => EmptyString
  | String c s' => if is_space c then lstrip s' else s
  end.

Fixpoint rstrip (s : string) : string :=
  match s with
  | EmptyString => EmptyString
  | String c s' =>
      let r := rstrip s' in
      if is_space c && is_empty r then EmptyString else String c r
  end.

Definition strip (s : string) : string := rstrip (lstrip s).

(** [s.split()]: the maximal runs of non-whitespace characters. [glue c ts]
    puts [c] in front of the first token of [ts]. *)
Definition starts_token (s : string) : bool :=
  match s with
  | EmptyString => false
  | String d _ => negb (is_space d)
  end.

Definition glue (c : ascii) (ts : list string) : list string :=
  match ts with
  | [] => [String c EmptyString]
  | t :: ts' => String c t :: ts'
  end.

Fixpoint split (s : string) : list string :=
  match s with
  | EmptyString => []
  | String c s' =>
      if is_space c then split s'
      else if starts_token s' then glue c (split s')
      else String c EmptyString :: split s'
  end.

(** [sub in s]. *)
Fixpoint contains (sub s : string) : bool :=
  prefix sub s ||
  match s with
  | EmptyString => false
  | String _ s' => contains sub s'
  end.

(** [s.find(sub)], with [None] for Python's -1. *)
Fixpoint find (sub s : string) : option nat :=
  if prefix sub s then Some 0
  else match s with
       | EmptyString => None
       | String _ s' => option_map S (find sub s')
       end.

(** [s[a:b]] for indices [0 <= a] and [0 <= b]. *)
Fixpoint drop (n : nat) (s : string) : string :=
  match n, s with
  | O, _ => s
  | S _, EmptyString => EmptyString
  | S n', String _ s' => drop n' s'
  end.

Fixpoint take (n : nat) (s : string) : string :=
  match n, s with
  | O, _ => EmptyString
  | S _, EmptyString => EmptyString
  | S n', String c s' => String c (take n' s')
  end.

Definition slice (a b : nat) (s : string) : string := take (b - a) (drop a s).

(** [s.replace(old, new)] for a non-empty [old]: the occurrences are replaced
    from left to right without overlap. The fuel is the length of [s]. *)
Fixpoint replace_fuel (fuel : nat) (old new s : string) : string :=
  match fuel with
  | O => s
  | S fuel' =>
      match s with
      | EmptyString => EmptyString
      | String c s' =>
          if prefix old s
          then new ++ replace_fuel fuel' old new (drop (String.length old) s)
          else String c (replace_fuel fuel' old new s')
      end
  end.

Definition replace (old new s : string) : string :=
  replace_fuel (String.length s) old new s.

(** [sep.join(l)]. *)
Definition join (sep : string) (l : list string) : string := String.concat sep l.

(** [str(n)] for a length. *)
Definition str_of_nat (n : nat) : string := NilZero.string_of_uint (Nat.to_uint n).

End Py.

Import Py.

(** ** Exceptions *)

Inductive exn : Set :=
| IndexError   (* list index out of range *)
| ValueError   (* substring not found *)
| KeyError.    (* missing dict key *)

Inductive result (A : Type) : Type :=
| Ok (a : A)
| Raise (e : exn).

Arguments Ok {A} a.
Arguments Raise {A} e.

Definition bind {A B : Type} (r : result A) (k : A -> result B) : result B :=
  match r with
  | Ok a => k a
  | Raise e => Raise e
  end.

Notation "x <- r ;; k" := (bind r (fun x => k))
  (at level 61, r at next level, right associativity).

(** [toks[i]] *)
Definition item (toks : list string) (i : nat) : result string :=
  match nth_error toks i with
  | Some t => Ok t
  | None => Raise IndexError
  end.

(** [line.index(sub)] *)
Definition index (sub line : string) : result nat :=
  match find sub line with
  | Some p => Ok p
  | None => Raise ValueError
  end.

(** ** The result mapping: a dict of lists, in insertion order *)

Definition dict : Type := list (string * list string).

Definition keys (d : dict) : list string := map fst d.

Fixpoint lookup (k : string) (d : dict) : option (list string) :=
  match d with
  | [] => None
  | (k', v) :: d' => if String.eqb k k' then Some v else lookup k d'
  end.

(** [d[k] = v] *)
Fixpoint setitem (k : string) (v : list string) (d : dict) : dict :=
  match d with
  | [] => [(k, v)]
  | (k', v') :: d' =>
      if String.eqb k k' then (k', v) :: d' else (k', v') :: setitem k v d'
  end.

(** [d[k].append(name)] *)
Definition append_item (k name : string) (d : dict) : result dict :=
  match lookup k d with
  | Some v => Ok (setitem k (v ++ [name]) d)
  | None => Raise KeyError
  end.

(** ** Scanner state: the local variables of a scan *)

Record scan_state : Type := mkState {
  out : dict;
  current_enum : string;
  current_class : string;
  brace : Z
}.

Definition init_state : scan_state :=
  {| out := []; current_enum := ""; current_class := ""; brace := 0 |}.

Definition set_out (st : scan_state) (d : dict) : scan_state :=
  {| out := d; current_enum := current_enum st;
     current_class := current_class st; brace := brace st |}.

Definition set_enum (st : scan_state) (e : string) : scan_state :=
  {| out := out st; current_enum := e;
     current_class := current_class st; brace := brace st |}.

Definition set_class (st : scan_state) (c : string) : scan_state :=
  {| out := out st; current_enum := current_enum st;
     current_class := c; brace := brace st |}.

Definition set_brace (st : scan_state) (b : Z) : scan_state :=
  {| out := out st; current_enum := current_enum st;
     current_class := current_class st; brace := b |}.

(** ** Enclosing-type tracking (the same text in both scanners) *)

(** The loop [for i in range(len(toks)): if toks[i] == "class": ... break];
    [ix] holds the indices still to visit, [cc] the value of [current_class]. *)
Fixpoint class_loop (toks : list string) (ix : list nat) (cc : string)
  : result string :=
  match ix with
  | [] => Ok cc
  | i :: ix' =>
      t <- item toks i ;;
      if String.eqb t "class" then
        t1 <- item toks (i + 1) ;;
        if negb (String.eqb t1 "SDLPP_EXPORT") then Ok t1
        else item toks (i + 2)
      else class_loop toks ix' cc
  end.

(** [if "class" in line and "enum" not in line and current_class == "": ...] *)
Definition detect_class (st : scan_state) (line : string) : result scan_state :=
  if contains "class" line && negb (contains "enum" line)
     && String.eqb (current_class st) ""
  then
    let toks := split line in
    cc <- class_loop toks (seq 0 (List.length toks)) (current_class st) ;;
    Ok (set_class st cc)
  else Ok st.

(** [if current_class != "": ...] *)
Definition track_brace (st : scan_state) (line : string) : scan_state :=
  if negb (String.eqb (current_class st) "") then
    let st1 := if contains "{" line then set_brace st (brace st + 1) else st in
    if contains "}" line then
      let st2 := set_brace st1 (brace st1 - 1) in
      if Z.eqb (brace st2) 0 then set_class st2 "" else st2
    else st1
  else st.

(** ** The enum scanner *)

(** The loop that looks for the name of a new enum. *)
Fixpoint enum_name_loop (toks : list string) (ix : list nat) (st : scan_state)
  : result scan_state :=
  match ix with
  | [] => Ok st
  | i :: ix' =>
      t <- item toks i ;;
      if negb (String.eqb t "enum") && negb (String.eqb t "class")
         && negb (String.eqb t "{")
      then
        let st1 := set_enum st t in
        let st2 :=
          if negb (String.eqb (current_class st1) "")
          then set_enum st1 (current_class st1 ++ "::" ++ current_enum st1)
          else st1 in
        Ok (set_out st2 (setitem (current_enum st2) [] (out st2)))
      else enum_name_loop toks ix' st
  end.

(** The loop that records an enumerator. *)
Fixpoint enum_value_loop (toks : list string) (ix : list nat) (st : scan_state)
  : result scan_state :=
  match ix with
  | [] => Ok st
  | i :: ix' =>
      t <- item toks i ;;
      let name := strip t in
      if (0 <? String.length name)%nat then
        d <- append_item (current_enum st) name (out st) ;;
        Ok (set_out st d)
      else enum_value_loop toks ix' st
  end.

(** The body of the loop over the lines, after the blank and [using] tests. *)
Definition enum_body (st : scan_state) (line : string) : result scan_state :=
  st1 <- detect_class st line ;;
  let st2 := track_brace st1 line in
  if contains "enum" line then
    let toks := split line in
    enum_name_loop toks (seq 0 (List.length toks)) st2
  else if contains "}" line then Ok (set_enum st2 "")
  else if negb (String.eqb (current_enum st2) "") then
    let toks := split line in
    enum_value_loop toks (seq 0 (List.length toks)) st2
  else Ok st2.

Definition skipped (line : string) : bool :=
  (String.length line =? 0)%nat || contains "using" line.

Definition enum_line (st : scan_state) (raw : string) : result scan_state :=
  let line := strip raw in
  if (String.length line =? 0)%nat then Ok st
  else if contains "using" line then Ok st
  else enum_body st line.

(** [for line in lines: ...] *)
Fixpoint scan (step : scan_state -> string -> result scan_state)
  (st : scan_state) (lines : list string) : result scan_state :=
  match lines with
  | [] => Ok st
  | raw :: rest => st' <- step st raw ;; scan step st' rest
  end.

Definition parse_enum (lines : list string) : result dict :=
  st <- scan enum_line init_state lines ;; Ok (out st).

(** ** The bitflag scanner *)

Definition bitflags_body (st : scan_state) (line : string) : result scan_state :=
  st1 <- detect_class st line ;;
  let st2 := track_brace st1 line in
  if contains "BEGIN_BITFLAGS" line then
    pos <- index "(" line ;;
    pos2 <- index ")" line ;;
    let st3 := set_enum st2 (strip (slice (pos + 1) pos2 line)) in
    let st4 :=
      if negb (String.eqb (current_class st3) "")
      then set_enum st3 (current_class st3 ++ "::" ++ current_enum st3)
      else st3 in
    Ok (set_out st4 (setitem (current_enum st4) [] (out st4)))
  else if negb (String.eqb (current_enum st2) "") then
    if contains "END_BITFLAGS" line then Ok (set_enum st2 "")
    else if contains "FLAG" line then
      pos <- index "(" line ;;
      pos2 <- index ")" line ;;
      let name := strip (slice (pos + 1) pos2 line) in
      if (0 <? String.length name)%nat then
        d <- append_item (current_enum st2) name (out st2) ;;
        Ok (set_out st2 d)
      else Ok st2
    else Ok st2
  else Ok st2.

Definition bitflags_line (st : scan_state) (raw : string) : result scan_state :=
  let line := strip raw in
  if (String.length line =? 0)%nat then Ok st
  else if contains "using" line then Ok st
  else bitflags_body st line.

Definition parse_bitflags (lines : list string) : result dict :=
  st <- scan bitflags_line init_state lines ;; Ok (out st).

(** ** The code emitter *)

Definition LF : string := String "010" EmptyString.
Definition TAB : string := String "009" EmptyString.

(** The f-string of [create_enum], with its replacement fields filled in. *)
Definition block (enum : string) (vals : list string) (is_bf : bool) : string :=
  let type := if is_bf then (enum ++ "::flag_type")%string else enum in
  let descr := replace "::" "_" enum in
  let body :=
    join (LF ++ TAB ++ TAB ++ TAB)%string
         (map (fun v => (enum ++ "::" ++ v ++ ",")%string) vals) in
  join LF (map (join "") [
    [];
    ["        namespace detail {"];
    ["             static inline constexpr std::array<"; type; ", ";
       str_of_nat (List.length vals); "> s_vals_of_"; descr; " = {"];
    ["             "; body];
    ["             };       "];
    ["        }"];
    ["        template <typename T>"];
    ["        static inline constexpr const decltype(detail::s_vals_of_"; descr; ")& "];
    ["        values(typename std::enable_if<std::is_same_v<"; enum;
       ", T>>::type* = nullptr) {"];
    ["            return detail::s_vals_of_"; descr; ";"];
    ["        } "];
    ["        template <typename T>"];
    ["        static inline constexpr auto  "];
    ["        begin(typename std::enable_if<std::is_same_v<"; enum;
       ", T>>::type* = nullptr) {"];
    ["            return detail::s_vals_of_"; descr; ".begin();"];
    ["        } "];
    ["        template <typename T>"];
    ["        static inline constexpr auto "];
    ["        end(typename std::enable_if<std::is_same_v<"; enum;
       ", T>>::type* = nullptr) {"];
    ["            return detail::s_vals_of_"; descr; ".end();"];
    ["        } "];
    ["        "]
  ]).

(** [print(text)] on the standard output [stdout]. *)
Definition print (text stdout : string) : string := (stdout ++ text ++ LF)%string.

(** [enums[enum]] *)
Definition getitem (k : string) (d : dict) : result (list string) :=
  match lookup k d with
  | Some v => Ok v
  | None => Raise KeyError
  end.

(** [for enum in enums.keys(): ...]; [ks] holds the keys still to visit. *)
Fixpoint emit_loop (enums : dict) (ks : list string) (is_bf : bool)
  (stdout : string) : result string :=
  match ks with
  | [] => Ok stdout
  | enum :: ks' =>
      vals <- getitem enum enums ;;
      emit_loop enums ks' is_bf (print (block enum vals is_bf) stdout)
  end.

Definition create_enum (enums : dict) (is_bf : bool) (stdout : string)
  : result string :=
  emit_loop enums (keys enums) is_bf stdout.

(** The script: both scans, then both emissions. *)
Definition main (lines : list string) (stdout : string) : result string :=
  e <- parse_enum lines ;;
  e2 <- parse_bitflags lines ;;
  stdout1 <- create_enum e false stdout ;;
  create_enum e2 true stdout1.

(** * Properties *)

(** ** Strings *)

Section StringFacts.

Fixpoint all_nonspace (s : string) : bool :=
  match s with
  | EmptyString => true
  | String c s' => negb (is_space c) && all_nonspace s'
  end.

(** A token, as [split] produces them: non-empty and free of whitespace. *)
Definition is_token (t : string) : Prop := t <> "" /\ all_nonspace t = true.

Lemma length_zero_iff (s : string) :
  (String.length s =? 0)%nat = true <-> s = "".
Proof.
  destruct s; simpl; split; intro H; try reflexivity; discriminate.
Qed.

Lemma length_pos_iff (s : string) :
  (0 <? String.length s)%nat = true <-> s <> "".
Proof.
  destruct s; simpl; split; intro H; try discriminate; try reflexivity.
  now elim H.
Qed.

Lemma lstrip_head s c r : lstrip s = String c r -> is_space c = false.
Proof.
  induction s as [|d s IH]; simpl; [discriminate|].
  destruct (is_space d) eqn:E; [exact IH|].
  intros H; injection H as -> _; exact E.
Qed.

Lemma rstrip_head s c r :
  rstrip s = String c r -> exists s', s = String c s'.
Proof.
  destruct s as [|d s]; simpl; [discriminate|].
  destruct (is_space d && is_empty (rstrip s)); [discriminate|].
  intros H; injection H as -> _; now exists s.
Qed.

Lemma strip_head s c r : strip s = String c r -> is_space c = false.
Proof.
  unfold strip; intros H.
  destruct (rstrip_head _ _ _ H) as [s' Hs'].
  exact (lstrip_head _ _ _ Hs').
Qed.

Lemma rstrip_nonspace t : all_nonspace t = true -> rstrip t = t.
Proof.
  induction t as [|c t IH]; simpl; [reflexivity|].
  intros H; apply andb_prop in H as [Hc Ht].
  apply negb_true_iff in Hc; rewrite Hc; simpl; now rewrite IH.
Qed.

Lemma lstrip_nonspace t : all_nonspace t = true -> lstrip t = t.
Proof.
  destruct t as [|c t]; simpl; [reflexivity|].
  intros H; apply andb_prop in H as [Hc _].
  apply negb_true_iff in Hc; now rewrite Hc.
Qed.

Lemma strip_token t : is_token t -> strip t = t.
Proof.
  intros [_ H]; unfold strip; rewrite (lstrip_nonspace _ H).
  now apply rstrip_nonspace.
Qed.

Lemma glue_tokens c ts :
  is_space c = false -> Forall is_token ts -> Forall is_token (glue c ts).
Proof.
  intros Hc Hts; destruct ts as [|t ts]; simpl.
  - constructor; [|constructor]. split; [discriminate|]. simpl; now rewrite Hc.
  - inversion Hts as [|? ? [_ Ht] Hts']; subst. constructor; [|assumption].
    split; [discriminate|]. simpl; now rewrite Hc, Ht.
Qed.

Lemma split_tokens s : Forall is_token (split s).
Proof.
  induction s as [|c s IH]; simpl; [constructor|].
  destruct (is_space c) eqn:Hc; [assumption|].
  destruct (starts_token s); [now apply glue_tokens|].
  constructor; [|assumption].
  split; [discriminate|]. simpl; now rewrite Hc.
Qed.

Lemma split_head c r :
  is_space c = false -> exists t ts, split (String c r) = String c t :: ts.
Proof.
  intros Hc; simpl; rewrite Hc.
  destruct (starts_token r).
  - destruct (split r) as [|t ts]; simpl; eauto.
  - eauto.
Qed.

(** A stripped, non-empty line has a first token. *)
Lemma split_strip_nonempty raw :
  strip raw <> "" -> exists t ts, split (strip raw) = t :: ts /\ is_token t.
Proof.
  intros Hne. destruct (strip raw) as [|c r] eqn:E; [now elim Hne|].
  destruct (split_head c r (strip_head _ _ _ E)) as (t & ts & Hs).
  exists (String c t), ts; split; [assumption|].
  pose proof (split_tokens (String c r)) as F. rewrite Hs in F.
  now inversion F.
Qed.

Lemma contains_find sub s :
  contains sub s = match find sub s with Some _ => true | None => false end.
Proof.
  induction s as [|c s IH]; cbn [contains find].
  - now destruct (prefix sub "").
  - destruct (prefix sub (String c s)); cbn [orb]; [reflexivity|].
    rewrite IH; now destruct (find sub s).
Qed.

Lemma index_raises sub line :
  contains sub line = false -> index sub line = Raise ValueError.
Proof.
  rewrite contains_find; unfold index; now destruct (find sub line).
Qed.

Lemma index_ok sub line :
  contains sub line = true -> exists p, index sub line = Ok p.
Proof.
  rewrite contains_find; unfold index; destruct (find sub line); eauto.
  discriminate.
Qed.

End StringFacts.

(** ** Dictionaries *)

Section DictFacts.

Lemma lookup_setitem_same k v d : lookup k (setitem k v d) = Some v.
Proof.
  induction d as [|[k' v'] d IH]; simpl.
  - now rewrite String.eqb_refl.
  - destruct (String.eqb k k') eqn:E; simpl; rewrite E; [reflexivity|exact IH].
Qed.

Lemma lookup_setitem_other k k0 v d :
  k0 <> k -> lookup k0 (setitem k v d) = lookup k0 d.
Proof.
  intros Hne; induction d as [|[k' v'] d IH]; simpl.
  - apply String.eqb_neq in Hne; now rewrite Hne.
  - destruct (String.eqb k k') eqn:E; simpl.
    + apply String.eqb_eq in E; subst k'.
      apply String.eqb_neq in Hne; now rewrite Hne.
    + now rewrite IH.
Qed.

Lemma lookup_in_keys k d : lookup k d <> None <-> In k (keys d).
Proof.
  induction d as [|[k' v'] d IH]; simpl.
  - split; [intros H; now elim H|intros []].
  - destruct (String.eqb k k') eqn:E.
    + apply String.eqb_eq in E; subst; split; [now left|discriminate].
    + apply String.eqb_neq in E; rewrite IH; split; [now right|].
      intros [H|H]; [now elim E|assumption].
Qed.

Lemma keys_setitem_in k v d : In k (keys d) -> keys (setitem k v d) = keys d.
Proof.
  induction d as [|[k' v'] d IH]; simpl; [intros []|].
  intros H. destruct (String.eqb k k') eqn:E; simpl; [reflexivity|].
  f_equal; apply IH. destruct H as [H|H]; [|assumption].
  subst; now rewrite String.eqb_refl in E.
Qed.

Lemma keys_setitem_new k v d :
  ~ In k (keys d) -> keys (setitem k v d) = keys d ++ [k].
Proof.
  induction d as [|[k' v'] d IH]; simpl; [reflexivity|].
  intros H. destruct (String.eqb k k') eqn:E; simpl.
  - apply String.eqb_eq in E; subst; elim H; now left.
  - f_equal; apply IH; intros H'; apply H; now right.
Qed.

Lemma setitem_keys_incl k v d k0 :
  In k0 (keys d) -> In k0 (keys (setitem k v d)).
Proof.
  intros H. destruct (in_dec string_dec k (keys d)) as [Hin|Hout].
  - now rewrite keys_setitem_in.
  - rewrite keys_setitem_new by assumption. apply in_or_app; now left.
Qed.

Lemma setitem_in_keys k v d : In k (keys (setitem k v d)).
Proof.
  apply lookup_in_keys; now rewrite lookup_setitem_same.
Qed.

(** Assignment never duplicates a key. *)
Lemma setitem_NoDup k v d : NoDup (keys d) -> NoDup (keys (setitem k v d)).
Proof.
  intros H. destruct (in_dec string_dec k (keys d)) as [Hin|Hout].
  - now rewrite keys_setitem_in.
  - rewrite keys_setitem_new by assumption.
    apply NoDup_app; [assumption|repeat constructor; intros []|].
    intros x Hx [<-|[]]; contradiction.
Qed.

Lemma append_item_ok k name d v :
  lookup k d = Some v -> append_item k name d = Ok (setitem k (v ++ [name]) d).
Proof. unfold append_item; now intros ->. Qed.

End DictFacts.

(** ** The loops over the tokens, in closed form *)

Arguments contains : simpl never.
Arguments split : simpl never.
Arguments strip : simpl never.
Arguments String.eqb : simpl never.

Section Loops.

Lemma item_app pre ts k : item (pre ++ ts) (List.length pre + k) = item ts k.
Proof.
  unfold item. rewrite nth_error_app2 by lia.
  now replace (List.length pre + k - List.length pre) with k by lia.
Qed.

Lemma item_app_here pre t ts : item (pre ++ t :: ts) (List.length pre) = Ok t.
Proof.
  rewrite <- (Nat.add_0_r (List.length pre)) at 1. now rewrite item_app.
Qed.

(** What follows the first token [class]: the next token, or the one after
    [SDLPP_EXPORT]; [None] when no token is [class]. *)
Fixpoint class_of (toks : list string) : option (result string) :=
  match toks with
  | [] => None
  | t :: ts =>
      if String.eqb t "class" then
        Some (t1 <- item ts 0 ;;
              if negb (String.eqb t1 "SDLPP_EXPORT") then Ok t1 else item ts 1)
      else class_of ts
  end.

Lemma class_loop_from pre toks cc :
  class_loop (pre ++ toks) (seq (List.length pre) (List.length toks)) cc =
  match class_of toks with
  | Some r => r
  | None => Ok cc
  end.
Proof.
  revert pre; induction toks as [|t ts IH]; intros pre; [reflexivity|].
  cbn [List.length seq class_loop class_of].
  rewrite item_app_here; cbn [bind].
  destruct (String.eqb t "class").
  - rewrite (item_app pre (t :: ts) 1), (item_app pre (t :: ts) 2).
    reflexivity.
  - replace (pre ++ t :: ts) with ((pre ++ [t]) ++ ts)
      by (now rewrite <- app_assoc).
    replace (S (List.length pre)) with (List.length (pre ++ [t]))
      by (rewrite length_app; simpl; lia).
    apply IH.
Qed.

Lemma class_loop_spec toks cc :
  class_loop toks (seq 0 (List.length toks)) cc =
  match class_of toks with
  | Some r => r
  | None => Ok cc
  end.
Proof. exact (class_loop_from [] toks cc). Qed.

Lemma class_of_none toks : ~ In "class" toks -> class_of toks = None.
Proof.
  induction toks as [|t ts IH]; simpl; [reflexivity|].
  intros H. destruct (String.eqb t "class") eqn:E.
  - apply String.eqb_eq in E; subst; elim H; now left.
  - apply IH; intros H'; apply H; now right.
Qed.

Lemma class_of_app before ts :
  ~ In "class" before -> class_of (before ++ ts) = class_of ts.
Proof.
  induction before as [|t before IH]; simpl; [reflexivity|].
  intros H. destruct (String.eqb t "class") eqn:E.
  - apply String.eqb_eq in E; subst; elim H; now left.
  - apply IH; intros H'; apply H; now right.
Qed.

(** A token that can name an enum. *)
Definition is_name_token (t : string) : bool :=
  negb (String.eqb t "enum") && negb (String.eqb t "class")
  && negb (String.eqb t "{").

(** The key under which a declaration named [t] is stored. *)
Definition qualified (cls t : string) : string :=
  if negb (String.eqb cls "") then (cls ++ "::" ++ t)%string else t.

(** The state after a declaration stored under [k] has been opened. *)
Definition declare (st : scan_state) (k : string) : scan_state :=
  {| out := setitem k [] (out st); current_enum := k;
     current_class := current_class st; brace := brace st |}.

Lemma enum_name_loop_from pre toks st :
  enum_name_loop (pre ++ toks) (seq (List.length pre) (List.length toks)) st =
  match List.find is_name_token toks with
  | Some t => Ok (declare st (qualified (current_class st) t))
  | None => Ok st
  end.
Proof.
  revert pre; induction toks as [|t ts IH]; intros pre; [reflexivity|].
  cbn [List.length seq enum_name_loop List.find].
  rewrite item_app_here; cbn [bind]. fold (is_name_token t).
  destruct (is_name_token t).
  - unfold declare, qualified, set_out, set_enum; cbn.
    now destruct (negb (String.eqb (current_class st) "")).
  - replace (pre ++ t :: ts) with ((pre ++ [t]) ++ ts)
      by (now rewrite <- app_assoc).
    replace (S (List.length pre)) with (List.length (pre ++ [t]))
      by (rewrite length_app; simpl; lia).
    apply IH.
Qed.

Lemma enum_name_loop_spec toks st :
  enum_name_loop toks (seq 0 (List.length toks)) st =
  match List.find is_name_token toks with
  | Some t => Ok (declare st (qualified (current_class st) t))
  | None => Ok st
  end.
Proof. exact (enum_name_loop_from [] toks st). Qed.

Lemma enum_value_loop_spec t ts st :
  is_token t ->
  enum_value_loop (t :: ts) (seq 0 (List.length (t :: ts))) st =
  (d <- append_item (current_enum st) t (out st) ;; Ok (set_out st d)).
Proof.
  intros Ht. cbn [List.length seq enum_value_loop item nth_error bind].
  rewrite (strip_token _ Ht).
  destruct Ht as [Hne _]. apply length_pos_iff in Hne. now rewrite Hne.
Qed.

End Loops.

(** ** One line of a scan *)

Section Lines.

Lemma set_class_same st : set_class st (current_class st) = st.
Proof. now destruct st. Qed.

Lemma detect_class_spec st line :
  detect_class st line =
  if contains "class" line && negb (contains "enum" line)
     && String.eqb (current_class st) ""
  then match class_of (split line) with
       | Some r => cc <- r ;; Ok (set_class st cc)
       | None => Ok st
       end
  else Ok st.
Proof.
  unfold detect_class.
  destruct (contains "class" line && negb (contains "enum" line)
            && String.eqb (current_class st) ""); [|reflexivity].
  rewrite class_loop_spec.
  destruct (class_of (split line)); [reflexivity|].
  cbn [bind]. now rewrite set_class_same.
Qed.

Lemma detect_class_quiet st line :
  ~ In "class" (split line) -> detect_class st line = Ok st.
Proof.
  intros H. rewrite detect_class_spec, (class_of_none _ H).
  now destruct (_ && _ && _).
Qed.

Lemma detect_class_active st line :
  current_class st <> "" -> detect_class st line = Ok st.
Proof.
  intros H. rewrite detect_class_spec.
  apply String.eqb_neq in H. rewrite H. now rewrite andb_false_r.
Qed.

Lemma detect_class_enum st line :
  contains "enum" line = true -> detect_class st line = Ok st.
Proof.
  intros H. rewrite detect_class_spec, H. cbn [negb].
  now rewrite andb_false_r.
Qed.

(** Enclosing-type detection touches [current_class] only. *)
Lemma detect_class_fields st line st1 :
  detect_class st line = Ok st1 ->
  out st1 = out st /\ current_enum st1 = current_enum st /\
  brace st1 = brace st.
Proof.
  rewrite detect_class_spec.
  destruct (_ && _ && _); [|intros H; injection H as <-; auto].
  destruct (class_of (split line)) as [[cc|e]|]; cbn [bind]; intros H;
    try discriminate; injection H as <-; auto.
Qed.

(** Enclosing-type detection only ever activates an enclosing type. *)
Lemma detect_class_keeps st line st1 :
  detect_class st line = Ok st1 ->
  current_class st <> "" -> current_class st1 = current_class st.
Proof.
  intros H Hact. rewrite (detect_class_active _ _ Hact) in H.
  now injection H as <-.
Qed.

Lemma track_brace_out st line : out (track_brace st line) = out st.
Proof.
  unfold track_brace.
  destruct (negb _), (contains "{" line), (contains "}" line);
    cbn; try reflexivity; now destruct (Z.eqb _ _).
Qed.

Lemma track_brace_enum st line :
  current_enum (track_brace st line) = current_enum st.
Proof.
  unfold track_brace.
  destruct (negb _), (contains "{" line), (contains "}" line);
    cbn; try reflexivity; now destruct (Z.eqb _ _).
Qed.

Lemma track_brace_idle st line :
  current_class st = "" -> track_brace st line = st.
Proof. unfold track_brace; now intros ->. Qed.

Lemma skipped_false line :
  skipped line = false ->
  (String.length line =? 0)%nat = false /\ contains "using" line = false.
Proof. unfold skipped; intros H; now apply orb_false_elim in H. Qed.

Lemma skipped_nonempty line : skipped line = false -> line <> "".
Proof.
  intros H Hl; subst line. discriminate H.
Qed.

Lemma enum_line_scanned st raw :
  skipped (strip raw) = false -> enum_line st raw = enum_body st (strip raw).
Proof.
  intros H; apply skipped_false in H as [H1 H2].
  unfold enum_line. now rewrite H1, H2.
Qed.

Lemma enum_line_skipped st raw :
  skipped (strip raw) = true -> enum_line st raw = Ok st.
Proof.
  unfold skipped, enum_line.
  destruct (String.length (strip raw) =? 0)%nat; [reflexivity|].
  cbn [orb]; now intros ->.
Qed.

Lemma bitflags_line_scanned st raw :
  skipped (strip raw) = false ->
  bitflags_line st raw = bitflags_body st (strip raw).
Proof.
  intros H; apply skipped_false in H as [H1 H2].
  unfold bitflags_line. now rewrite H1, H2.
Qed.

Lemma bitflags_line_skipped st raw :
  skipped (strip raw) = true -> bitflags_line st raw = Ok st.
Proof.
  unfold skipped, bitflags_line.
  destruct (String.length (strip raw) =? 0)%nat; [reflexivity|].
  cbn [orb]; now intros ->.
Qed.

(** The part of [enum_body] that follows the enclosing-type tracking. *)
Definition enum_action (st2 : scan_state) (line : string) : result scan_state :=
  if contains "enum" line then
    match List.find is_name_token (split line) with
    | Some t => Ok (declare st2 (qualified (current_class st2) t))
    | None => Ok st2
    end
  else if contains "}" line then Ok (set_enum st2 "")
  else if negb (String.eqb (current_enum st2) "") then
    match split line with
    | t :: _ =>
        d <- append_item (current_enum st2) t (out st2) ;; Ok (set_out st2 d)
    | [] => Ok st2
    end
  else Ok st2.

Lemma enum_body_spec st line :
  enum_body st line =
  (st1 <- detect_class st line ;; enum_action (track_brace st1 line) line).
Proof.
  unfold enum_body, enum_action.
  destruct (detect_class st line) as [st1|e]; cbn [bind]; [|reflexivity].
  destruct (contains "enum" line); [apply enum_name_loop_spec|].
  destruct (contains "}" line); [reflexivity|].
  destruct (negb _); [|reflexivity].
  pose proof (split_tokens line) as F.
  destruct (split line) as [|t ts]; [reflexivity|].
  inversion F; subst. now apply enum_value_loop_spec.
Qed.

(** The name between the first [(] and the first [)] of a line. *)
Definition paren_name (line : string) : result string :=
  pos <- index "(" line ;;
  pos2 <- index ")" line ;;
  Ok (strip (slice (pos + 1) pos2 line)).

(** The part of [bitflags_body] that follows the enclosing-type tracking. *)
Definition bitflags_action (st2 : scan_state) (line : string)
  : result scan_state :=
  if contains "BEGIN_BITFLAGS" line then
    n <- paren_name line ;;
    Ok (declare st2 (qualified (current_class st2) n))
  else if negb (String.eqb (current_enum st2) "") then
    if contains "END_BITFLAGS" line then Ok (set_enum st2 "")
    else if contains "FLAG" line then
      n <- paren_name line ;;
      if (0 <? String.length n)%nat then
        d <- append_item (current_enum st2) n (out st2) ;; Ok (set_out st2 d)
      else Ok st2
    else Ok st2
  else Ok st2.

Lemma bitflags_body_spec st line :
  bitflags_body st line =
  (st1 <- detect_class st line ;; bitflags_action (track_brace st1 line) line).
Proof.
  unfold bitflags_body, bitflags_action, paren_name.
  destruct (detect_class st line) as [st1|e]; cbn [bind]; [|reflexivity].
  destruct (contains "BEGIN_BITFLAGS" line).
  - destruct (index "(" line); cbn [bind]; [|reflexivity].
    destruct (index ")" line); cbn [bind]; [|reflexivity].
    unfold declare, qualified, set_out, set_enum; cbn.
    now destruct (negb (String.eqb (current_class (track_brace st1 line)) "")).
  - destruct (negb _); [|reflexivity].
    destruct (contains "END_BITFLAGS" line); [reflexivity|].
    destruct (contains "FLAG" line); [|reflexivity].
    destruct (index "(" line); cbn [bind]; [|reflexivity].
    destruct (index ")" line); cbn [bind]; reflexivity.
Qed.

(** Scans compose, and a fault ends a scan. *)
Lemma scan_app step st pre post :
  scan step st (pre ++ post) = (st1 <- scan step st pre ;; scan step st1 post).
Proof.
  revert st; induction pre as [|l pre IH]; intros st; simpl.
  - reflexivity.
  - destruct (step st l); simpl; [apply IH|reflexivity].
Qed.

End Lines.

(** ** Invariants of a scan *)

Section Invariants.

(** The mapping is a dict (no key twice) and the open declaration, if any,
    is one of its keys. *)
Definition wf (st : scan_state) : Prop :=
  NoDup (keys (out st)) /\
  (current_enum st <> "" -> In (current_enum st) (keys (out st))).

Lemma wf_init : wf init_state.
Proof. split; [constructor|intros H; now elim H]. Qed.

Lemma wf_fields st st' :
  out st' = out st -> current_enum st' = current_enum st -> wf st -> wf st'.
Proof. unfold wf; now intros -> ->. Qed.

Lemma wf_declare st k : wf st -> wf (declare st k).
Proof.
  intros [Hnd _]; split; cbn.
  - now apply setitem_NoDup.
  - intros _; apply setitem_in_keys.
Qed.

Lemma wf_close st : wf st -> wf (set_enum st "").
Proof. intros [Hnd _]; split; cbn; [assumption|intros H; now elim H]. Qed.

Lemma wf_append st v name :
  wf st -> wf (set_out st (setitem (current_enum st) (v ++ [name]) (out st))).
Proof.
  intros [Hnd Hin]; split; cbn.
  - now apply setitem_NoDup.
  - intros _; apply setitem_in_keys.
Qed.

Lemma wf_lookup st :
  wf st -> current_enum st <> "" ->
  exists v, lookup (current_enum st) (out st) = Some v.
Proof.
  intros [_ Hin] Hne. specialize (Hin Hne).
  apply lookup_in_keys in Hin.
  destruct (lookup (current_enum st) (out st)) as [v|]; [eauto|now elim Hin].
Qed.

Lemma wf_track_brace st line : wf st -> wf (track_brace st line).
Proof.
  apply wf_fields; [apply track_brace_out|apply track_brace_enum].
Qed.

Lemma wf_detect_class st line st1 :
  detect_class st line = Ok st1 -> wf st -> wf st1.
Proof.
  intros H; apply detect_class_fields in H as (Ho & He & _).
  now apply wf_fields.
Qed.

Lemma enum_action_wf st2 line st' :
  wf st2 -> enum_action st2 line = Ok st' -> wf st'.
Proof.
  intros Hwf; unfold enum_action.
  destruct (contains "enum" line).
  - destruct (List.find _ _); intros H; injection H as <-;
      [now apply wf_declare|assumption].
  - destruct (contains "}" line);
      [intros H; injection H as <-; now apply wf_close|].
    destruct (negb _); [|intros H; now injection H as <-].
    destruct (split line) as [|t ts]; [intros H; now injection H as <-|].
    unfold append_item.
    destruct (lookup _ _) as [v|]; cbn [bind]; [|discriminate].
    intros H; injection H as <-; now apply wf_append.
Qed.

(** In a well-formed state the enum scanner's own action never faults. *)
Lemma enum_action_total st2 line :
  wf st2 -> exists st', enum_action st2 line = Ok st'.
Proof.
  intros Hwf; unfold enum_action.
  destruct (contains "enum" line); [destruct (List.find _ _); eauto|].
  destruct (contains "}" line); [eauto|].
  destruct (negb _) eqn:E; [|eauto].
  destruct (split line) as [|t ts]; [eauto|].
  apply negb_true_iff, String.eqb_neq in E.
  destruct (wf_lookup _ Hwf E) as [v Hv].
  rewrite (append_item_ok _ _ _ _ Hv); cbn [bind]; eauto.
Qed.

Lemma bitflags_action_wf st2 line st' :
  wf st2 -> bitflags_action st2 line = Ok st' -> wf st'.
Proof.
  intros Hwf; unfold bitflags_action.
  destruct (contains "BEGIN_BITFLAGS" line).
  - destruct (paren_name line); cbn [bind]; [|discriminate].
    intros H; injection H as <-; now apply wf_declare.
  - destruct (negb _); [|intros H; now injection H as <-].
    destruct (contains "END_BITFLAGS" line);
      [intros H; injection H as <-; now apply wf_close|].
    destruct (contains "FLAG" line); [|intros H; now injection H as <-].
    destruct (paren_name line) as [n|]; cbn [bind]; [|discriminate].
    destruct (0 <? String.length n)%nat; [|intros H; now injection H as <-].
    unfold append_item.
    destruct (lookup _ _) as [v|]; cbn [bind]; [|discriminate].
    intros H; injection H as <-; now apply wf_append.
Qed.

Lemma enum_line_wf st raw st' : wf st -> enum_line st raw = Ok st' -> wf st'.
Proof.
  intros Hwf. destruct (skipped (strip raw)) eqn:E.
  - rewrite (enum_line_skipped _ _ E); intros H; now injection H as <-.
  - rewrite (enum_line_scanned _ _ E), enum_body_spec.
    destruct (detect_class st (strip raw)) as [st1|] eqn:D; cbn [bind];
      [|discriminate].
    apply enum_action_wf, wf_track_brace. exact (wf_detect_class _ _ _ D Hwf).
Qed.

Lemma bitflags_line_wf st raw st' :
  wf st -> bitflags_line st raw = Ok st' -> wf st'.
Proof.
  intros Hwf. destruct (skipped (strip raw)) eqn:E.
  - rewrite (bitflags_line_skipped _ _ E); intros H; now injection H as <-.
  - rewrite (bitflags_line_scanned _ _ E), bitflags_body_spec.
    destruct (detect_class st (strip raw)) as [st1|] eqn:D; cbn [bind];
      [|discriminate].
    apply bitflags_action_wf, wf_track_brace.
    exact (wf_detect_class _ _ _ D Hwf).
Qed.

(** Any property kept by every line is kept by a scan. *)
Lemma scan_invariant (step : scan_state -> string -> result scan_state)
  (P : scan_state -> Prop) :
  (forall st raw st', P st -> step st raw = Ok st' -> P st') ->
  forall lines st st', P st -> scan step st lines = Ok st' -> P st'.
Proof.
  intros Hstep; induction lines as [|l lines IH]; intros st st' HP; simpl.
  - intros H; now injection H as <-.
  - destruct (step st l) as [st1|] eqn:E; simpl; [|discriminate].
    apply IH. exact (Hstep _ _ _ HP E).
Qed.

Lemma scan_enum_wf lines st st' :
  wf st -> scan enum_line st lines = Ok st' -> wf st'.
Proof. apply (scan_invariant enum_line wf), enum_line_wf. Qed.

Lemma scan_bitflags_wf lines st st' :
  wf st -> scan bitflags_line st lines = Ok st' -> wf st'.
Proof. apply (scan_invariant bitflags_line wf), bitflags_line_wf. Qed.

End Invariants.

(** ** Blocks of enumerator lines *)

Section EnumBlocks.

Definition has_token (t line : string) : bool :=
  existsb (String.eqb t) (split line).

Definition first_token (line : string) : string := hd "" (split line).

(** A line the enum scanner reads as an enumerator: it is scanned, holds
    neither [enum] nor a closing brace, and has no token [class]. *)
Definition enumerator_line (raw : string) : bool :=
  let line := strip raw in
  negb (skipped line) && negb (contains "enum" line)
  && negb (contains "}" line) && negb (has_token "class" line).

(** A line the enum scanner reads as the end of an enum. *)
Definition closing_line (raw : string) : bool :=
  let line := strip raw in
  negb (skipped line) && negb (contains "enum" line)
  && contains "}" line && negb (has_token "class" line).

Lemma has_token_false t line : has_token t line = false -> ~ In t (split line).
Proof.
  unfold has_token; intros H Hin.
  assert (existsb (String.eqb t) (split line) = true) as E
    by (apply existsb_exists; exists t; split;
        [assumption|apply String.eqb_refl]).
  now rewrite H in E.
Qed.

Lemma setitem_setitem k v1 v2 d :
  setitem k v2 (setitem k v1 d) = setitem k v2 d.
Proof.
  induction d as [|[k' v'] d IH]; simpl.
  - now rewrite String.eqb_refl.
  - destruct (String.eqb k k') eqn:E; simpl; rewrite E; [reflexivity|].
    now rewrite IH.
Qed.

Lemma enumerator_line_inv raw :
  enumerator_line raw = true ->
  skipped (strip raw) = false /\ contains "enum" (strip raw) = false /\
  contains "}" (strip raw) = false /\ ~ In "class" (split (strip raw)).
Proof.
  unfold enumerator_line; intros H.
  repeat (apply andb_prop in H as [H ?]).
  repeat match goal with
         | X : negb _ = true |- _ => apply negb_true_iff in X
         end.
  repeat split; try assumption. now apply has_token_false.
Qed.

(** An enumerator line appends its first token to the open enum. *)
Lemma enumerator_line_step st raw v :
  enumerator_line raw = true ->
  current_enum st <> "" ->
  lookup (current_enum st) (out st) = Some v ->
  exists st',
    enum_line st raw = Ok st' /\
    out st' =
      setitem (current_enum st) (v ++ [first_token (strip raw)]) (out st) /\
    current_enum st' = current_enum st.
Proof.
  intros Hl Hne Hv. apply enumerator_line_inv in Hl as (Hs & He & Hb & Hc).
  rewrite (enum_line_scanned _ _ Hs), enum_body_spec.
  rewrite (detect_class_quiet _ _ Hc); cbn [bind].
  pose proof (track_brace_out st (strip raw)) as Ho2.
  pose proof (track_brace_enum st (strip raw)) as He2.
  set (st2 := track_brace st (strip raw)) in *.
  unfold enum_action. rewrite He, Hb, He2.
  apply String.eqb_neq in Hne; rewrite Hne; cbn [negb].
  destruct (split_strip_nonempty raw (skipped_nonempty _ Hs))
    as (t & ts & Hsplit & _).
  unfold first_token; rewrite Hsplit; cbn [hd].
  rewrite Ho2, (append_item_ok _ _ _ _ Hv); cbn [bind].
  eexists; split; [reflexivity|]. cbn. now split.
Qed.

(** A run of enumerator lines appends their first tokens, in order. *)
Lemma enumerator_lines_scan body : forall st v,
  forallb enumerator_line body = true ->
  current_enum st <> "" ->
  lookup (current_enum st) (out st) = Some v ->
  exists st',
    scan enum_line st body = Ok st' /\
    out st' =
      setitem (current_enum st)
              (v ++ map (fun raw => first_token (strip raw)) body) (out st) /\
    current_enum st' = current_enum st.
Proof.
  induction body as [|raw body IH]; intros st v Hall Hne Hv.
  - exists st; cbn [scan map]. rewrite app_nil_r. repeat split.
    clear Hne. revert Hv. generalize (current_enum st) as k.
    induction (out st) as [|[k' v'] d IHd]; intros k; simpl; [discriminate|].
    destruct (String.eqb k k') eqn:E.
    + intros H; injection H as ->; reflexivity.
    + intros H; now rewrite <- IHd.
  - cbn [forallb] in Hall. apply andb_prop in Hall as [Hl Hall].
    destruct (enumerator_line_step st raw v Hl Hne Hv) as (st1 & H1 & Ho & He).
    cbn [scan]. rewrite H1; cbn [bind].
    destruct (IH st1 (v ++ [first_token (strip raw)]) Hall) as (st' & H2 & Ho' & He').
    + now rewrite He.
    + rewrite He, Ho. apply lookup_setitem_same.
    + exists st'; split; [assumption|]. split; [|congruence].
      rewrite Ho', He, Ho, setitem_setitem. cbn [map].
      now rewrite <- app_assoc.
Qed.

Lemma find_name_token toks t :
  List.find is_name_token toks = Some t -> In t toks /\ is_name_token t = true.
Proof. apply find_some. Qed.

Lemma find_name_token_nonempty line t :
  List.find is_name_token (split line) = Some t -> t <> "".
Proof.
  intros H; apply find_name_token in H as [Hin _].
  pose proof (split_tokens line) as F.
  rewrite Forall_forall in F. now destruct (F _ Hin).
Qed.

End EnumBlocks.

(** ** Blocks of flag lines *)

Section FlagBlocks.

Lemma append_assoc (a b c : string) : ((a ++ b) ++ c = a ++ (b ++ c))%string.
Proof. induction a as [|x a IH]; simpl; [reflexivity|now rewrite IH]. Qed.

Lemma prefix_char c d s :
  prefix (String c "") (String d s) = if ascii_dec c d then true else false.
Proof. simpl. destruct (ascii_dec c d); [now destruct s|reflexivity]. Qed.

Lemma contains_char_cons c d s :
  contains (String c "") (String d s) =
  (if ascii_dec c d then true else false) || contains (String c "") s.
Proof.
  unfold contains at 1; fold contains. now rewrite prefix_char.
Qed.

Lemma contains_char_app c p x :
  contains (String c "") (p ++ x) =
  contains (String c "") p || contains (String c "") x.
Proof.
  induction p as [|d p IH].
  - reflexivity.
  - change (String d p ++ x)%string with (String d (p ++ x)).
    rewrite !contains_char_cons, IH. now rewrite orb_assoc.
Qed.

(** The first occurrence of a character that [x] does not hold. *)
Lemma find_after c x rest :
  contains (String c "") x = false ->
  find (String c "") (x ++ String c rest) = Some (String.length x).
Proof.
  induction x as [|d x IH]; intros H.
  - change ("" ++ String c rest)%string with (String c rest).
    unfold find. rewrite prefix_char.
    destruct (ascii_dec c c) as [_|n]; [reflexivity|now elim n].
  - change (String d x ++ String c rest)%string
      with (String d (x ++ String c rest)).
    rewrite contains_char_cons in H. apply orb_false_elim in H as [Hd Hx].
    unfold find; fold find. rewrite prefix_char, Hd, (IH Hx). reflexivity.
Qed.

Lemma drop_app p y : drop (String.length p) (p ++ y) = y.
Proof. induction p as [|d p IH]; simpl; [now destruct y|exact IH]. Qed.

Lemma take_app x y : take (String.length x) (x ++ y) = x.
Proof. induction x as [|d x IH]; simpl; [now destruct y|now rewrite IH]. Qed.

Lemma length_append (a b : string) :
  String.length (a ++ b) = String.length a + String.length b.
Proof. induction a as [|x a IH]; simpl; [reflexivity|now rewrite IH]. Qed.

(** The name of a line [p(x)rest] whose [p] holds no parenthesis and whose
    [x] holds no closing one. *)
Lemma paren_name_spec p x rest :
  contains "(" p = false -> contains ")" p = false ->
  contains ")" x = false ->
  paren_name (p ++ "(" ++ x ++ ")" ++ rest) = Ok (strip x).
Proof.
  intros Hp1 Hp2 Hx. unfold paren_name, index.
  change ("(" ++ x ++ ")" ++ rest)%string with (String "(" (x ++ String ")" rest)).
  rewrite (find_after "(" p _ Hp1); cbn [bind].
  replace (p ++ String "(" (x ++ String ")" rest))%string
    with ((p ++ String "(" x) ++ String ")" rest)%string
    by (now rewrite append_assoc).
  rewrite (find_after ")" (p ++ String "(" x) rest); cbn [bind].
  - f_equal; f_equal. unfold slice. rewrite length_append. cbn [String.length].
    replace (String.length p + S (String.length x) - (String.length p + 1))
      with (String.length x) by lia.
    rewrite append_assoc.
    replace (String.length p + 1) with (String.length (p ++ "(")%string)
      by (rewrite length_append; reflexivity).
    change (String "(" x ++ String ")" rest)%string
      with ("(" ++ (x ++ String ")" rest))%string.
    rewrite <- append_assoc, drop_app. apply take_app.
  - rewrite contains_char_app, Hp2. cbn [orb].
    rewrite contains_char_cons, Hx. reflexivity.
Qed.

(** The argument of a [BEGIN_BITFLAGS(name)] line the bitflag scanner reads
    as the start of the set [name]. *)
Definition begin_name_ok (name : string) : bool :=
  let line := ("BEGIN_BITFLAGS(" ++ name ++ ")")%string in
  negb (contains "using" line) && negb (has_token "class" line)
  && negb (contains ")" name) && negb (is_empty (strip name)).

(** The argument of a [FLAG(x)] line the bitflag scanner reads as a flag. *)
Definition flag_name_ok (x : string) : bool :=
  let line := ("FLAG(" ++ x ++ ")")%string in
  negb (contains "using" line) && negb (has_token "class" line)
  && negb (contains "BEGIN_BITFLAGS" line) && negb (contains "END_BITFLAGS" line)
  && negb (contains ")" x) && negb (is_empty (strip x)).

Lemma is_empty_false s : is_empty s = false -> s <> "".
Proof. destruct s; [discriminate|discriminate]. Qed.

Lemma not_skipped line :
  line <> "" -> contains "using" line = false -> skipped line = false.
Proof.
  intros Hne Hu. unfold skipped. rewrite Hu, orb_false_r.
  destruct line; [now elim Hne|reflexivity].
Qed.

(** A flag line appends its trimmed argument to the open set. *)
Lemma flag_line_step st raw x v :
  strip raw = ("FLAG(" ++ x ++ ")")%string ->
  flag_name_ok x = true ->
  current_enum st <> "" ->
  lookup (current_enum st) (out st) = Some v ->
  exists st',
    bitflags_line st raw = Ok st' /\
    out st' = setitem (current_enum st) (v ++ [strip x]) (out st) /\
    current_enum st' = current_enum st.
Proof.
  intros Hraw Hx Hne Hv. unfold flag_name_ok in Hx.
  repeat (apply andb_prop in Hx as [Hx ?]).
  repeat match goal with
         | X : negb _ = true |- _ => apply negb_true_iff in X
         end.
  rewrite bitflags_line_scanned
    by (rewrite Hraw; apply not_skipped; [discriminate|assumption]).
  rewrite Hraw, bitflags_body_spec.
  rewrite (detect_class_quiet _ _ (has_token_false _ _ H3)); cbn [bind].
  pose proof (track_brace_out st ("FLAG(" ++ x ++ ")")%string) as Ho2.
  pose proof (track_brace_enum st ("FLAG(" ++ x ++ ")")%string) as He2.
  set (st2 := track_brace st _) in *.
  unfold bitflags_action. rewrite H2, H1, He2.
  apply String.eqb_neq in Hne; rewrite Hne; cbn [negb].
  replace (contains "FLAG" ("FLAG(" ++ x ++ ")")) with true
    by (unfold contains; simpl; now destruct x).
  assert (Hp : paren_name ("FLAG(" ++ x ++ ")") = Ok (strip x))
    by exact (paren_name_spec "FLAG" x "" eq_refl eq_refl H0).
  rewrite Hp; cbn [bind].
  apply is_empty_false, length_pos_iff in H. rewrite H, Ho2.
  rewrite (append_item_ok _ _ _ _ Hv); cbn [bind].
  eexists; split; [reflexivity|]. cbn. now split.
Qed.

(** A run of flag lines appends their trimmed arguments, in order. *)
Lemma flag_lines_scan raws xs :
  Forall2 (fun raw x => strip raw = ("FLAG(" ++ x ++ ")")%string) raws xs ->
  forall st v,
  forallb flag_name_ok xs = true ->
  current_enum st <> "" ->
  lookup (current_enum st) (out st) = Some v ->
  exists st',
    scan bitflags_line st raws = Ok st' /\
    out st' = setitem (current_enum st) (v ++ map strip xs) (out st) /\
    current_enum st' = current_enum st.
Proof.
  induction 1 as [|raw x raws xs Hraw _ IH]; intros st v Hall Hne Hv.
  - exists st; cbn [scan map]. rewrite app_nil_r. repeat split.
    clear Hne. revert Hv. generalize (current_enum st) as k.
    induction (out st) as [|[k' v'] d IHd]; intros k; simpl; [discriminate|].
    destruct (String.eqb k k') eqn:E.
    + intros H; injection H as ->; reflexivity.
    + intros H; now rewrite <- IHd.
  - cbn [forallb] in Hall. apply andb_prop in Hall as [Hl Hall].
    destruct (flag_line_step st raw x v Hraw Hl Hne Hv) as (st1 & H1 & Ho & He).
    cbn [scan]. rewrite H1; cbn [bind].
    destruct (IH st1 (v ++ [strip x]) Hall) as (st' & H2 & Ho' & He').
    + now rewrite He.
    + rewrite He, Ho. apply lookup_setitem_same.
    + exists st'; split; [assumption|]. split; [|congruence].
      rewrite Ho', He, Ho, setitem_setitem. cbn [map].
      now rewrite <- app_assoc.
Qed.

End FlagBlocks.

(** ** Brace depth *)

Section BraceDepth.

Definition b2z (b : bool) : Z := if b then 1%Z else 0%Z.

(** What [track_brace] does while an enclosing type is active. *)
Lemma track_brace_active st line :
  current_class st <> "" ->
  let st' := track_brace st line in
  brace st' =
    (brace st + b2z (contains "{" line) - b2z (contains "}" line))%Z /\
  (current_class st' = current_class st \/ current_class st' = "") /\
  (current_class st' = "" <-> contains "}" line = true /\ brace st' = 0%Z).
Proof.
  intros Hact st'. subst st'. unfold track_brace.
  pose proof Hact as Hb. apply String.eqb_neq in Hb. rewrite Hb; cbn [negb].
  destruct (contains "{" line), (contains "}" line);
    cbn [b2z brace set_brace];
    try match goal with
        | |- context [Z.eqb ?a ?b] => destruct (Z.eqb_spec a b) as [E|E]
        end;
    cbn [brace current_class set_class set_brace] in *;
    (split; [lia|]); (split; [auto|]);
    (split;
     [ intros HH; first [now elim Hact | split; [reflexivity|lia]]
     | intros [H1 H2]; first [reflexivity | discriminate | exfalso; lia] ]).
Qed.

Lemma enum_action_tracking st2 line st' :
  enum_action st2 line = Ok st' ->
  current_class st' = current_class st2 /\ brace st' = brace st2.
Proof.
  unfold enum_action.
  destruct (contains "enum" line).
  - destruct (List.find _ _); intros H; injection H as <-; auto.
  - destruct (contains "}" line); [intros H; injection H as <-; auto|].
    destruct (negb _); [|intros H; injection H as <-; auto].
    destruct (split line); [intros H; injection H as <-; auto|].
    destruct (append_item _ _ _); cbn [bind]; [|discriminate].
    intros H; injection H as <-; auto.
Qed.

Lemma bitflags_action_tracking st2 line st' :
  bitflags_action st2 line = Ok st' ->
  current_class st' = current_class st2 /\ brace st' = brace st2.
Proof.
  unfold bitflags_action.
  destruct (contains "BEGIN_BITFLAGS" line).
  - destruct (paren_name line); cbn [bind]; [|discriminate].
    intros H; injection H as <-; auto.
  - destruct (negb _); [|intros H; injection H as <-; auto].
    destruct (contains "END_BITFLAGS" line); [intros H; injection H as <-; auto|].
    destruct (contains "FLAG" line); [|intros H; injection H as <-; auto].
    destruct (paren_name line) as [n|]; cbn [bind]; [|discriminate].
    destruct (0 <? String.length n)%nat; [|intros H; injection H as <-; auto].
    destruct (append_item _ _ _); cbn [bind]; [|discriminate].
    intros H; injection H as <-; auto.
Qed.

(** A step that skips blank and [using] lines and otherwise leaves the
    enclosing type and the depth as the shared tracking code sets them. *)
Definition tracks (step : scan_state -> string -> result scan_state) : Prop :=
  forall st raw st', step st raw = Ok st' ->
    (skipped (strip raw) = true /\ st' = st) \/
    (skipped (strip raw) = false /\
     exists st1, detect_class st (strip raw) = Ok st1 /\
       current_class st' = current_class (track_brace st1 (strip raw)) /\
       brace st' = brace (track_brace st1 (strip raw))).

Lemma enum_line_tracks : tracks enum_line.
Proof.
  intros st raw st'. destruct (skipped (strip raw)) eqn:E.
  - rewrite (enum_line_skipped _ _ E). intros H; injection H as <-. now left.
  - rewrite (enum_line_scanned _ _ E), enum_body_spec.
    destruct (detect_class st (strip raw)) as [st1|]; cbn [bind];
      [|discriminate].
    intros H. right. split; [reflexivity|]. exists st1. split; [reflexivity|].
    exact (enum_action_tracking _ _ _ H).
Qed.

Lemma bitflags_line_tracks : tracks bitflags_line.
Proof.
  intros st raw st'. destruct (skipped (strip raw)) eqn:E.
  - rewrite (bitflags_line_skipped _ _ E). intros H; injection H as <-. now left.
  - rewrite (bitflags_line_scanned _ _ E), bitflags_body_spec.
    destruct (detect_class st (strip raw)) as [st1|]; cbn [bind];
      [|discriminate].
    intros H. right. split; [reflexivity|]. exists st1. split; [reflexivity|].
    exact (bitflags_action_tracking _ _ _ H).
Qed.

Section Tracking.

Variable step : scan_state -> string -> result scan_state.
Hypothesis step_tracks : tracks step.

(** One scanned line, with an enclosing type active once the line's own
    detection has run. *)
Lemma tracked_line st raw st1 st' :
  skipped (strip raw) = false ->
  detect_class st (strip raw) = Ok st1 ->
  current_class st1 <> "" ->
  step st raw = Ok st' ->
  brace st' = (brace st + b2z (contains "{" (strip raw))
               - b2z (contains "}" (strip raw)))%Z /\
  (current_class st' = current_class st1 \/ current_class st' = "") /\
  (current_class st' = "" <->
   contains "}" (strip raw) = true /\ brace st' = 0%Z).
Proof.
  intros Hs Hd Hact Hstep.
  destruct (step_tracks _ _ _ Hstep) as [[E _]|(_ & st1' & Hd' & Hc & Hb)];
    [congruence|].
  rewrite Hd in Hd'; injection Hd' as <-.
  destruct (detect_class_fields _ _ _ Hd) as (_ & _ & Hb1).
  destruct (track_brace_active st1 (strip raw) Hact) as (B1 & B2 & B3).
  rewrite Hc, Hb, <- Hb1. auto.
Qed.

(** Any line, with an enclosing type active before it: the enclosing type
    stays, or the line holds a closing brace that brings the depth to 0. *)
Lemma tracked_step st raw st' :
  current_class st <> "" ->
  step st raw = Ok st' ->
  current_class st' = current_class st \/
  (current_class st' = "" /\ brace st' = 0%Z /\
   contains "}" (strip raw) = true).
Proof.
  intros Hact Hstep.
  destruct (step_tracks _ _ _ Hstep) as [[_ ->]|(Hs & st1 & Hd & _)];
    [now left|].
  pose proof Hd as Hd'. rewrite (detect_class_active _ _ Hact) in Hd'.
  injection Hd' as <-.
  destruct (tracked_line _ _ _ _ Hs Hd Hact Hstep) as (_ & [H|H] & H3);
    [now left|].
  right. split; [assumption|]. now apply H3 in H as [? ?].
Qed.

(** A scan: the enclosing type stays the same up to the first line that
    brings the depth to 0. *)
Lemma tracked_scan lines : forall st st',
  current_class st <> "" ->
  scan step st lines = Ok st' ->
  current_class st' = current_class st \/
  exists pre raw post stp stm,
    lines = pre ++ raw :: post /\
    scan step st pre = Ok stp /\
    current_class stp = current_class st /\
    step stp raw = Ok stm /\
    current_class stm = "" /\ brace stm = 0%Z /\
    contains "}" (strip raw) = true.
Proof.
  induction lines as [|l lines IH]; intros st st' Hact; cbn [scan].
  - intros H; injection H as <-; now left.
  - destruct (step st l) as [s1|] eqn:E; cbn [bind]; [|discriminate].
    intros Hscan.
    destruct (tracked_step _ _ _ Hact E) as [Hsame|(Hc & Hb & Hr)].
    + destruct (IH s1 st') as [H|(pre & raw & post & stp & stm & H)];
        [now rewrite Hsame|assumption| |].
      * left; congruence.
      * right. destruct H as (-> & Hp & Hcp & Hrest).
        exists (l :: pre), raw, post, stp, stm.
        split; [reflexivity|]. split; [cbn [scan]; now rewrite E|].
        split; [congruence|assumption].
    + right. exists [], l, lines, st, s1. repeat split; assumption.
Qed.

End Tracking.

(** No enclosing type active means depth 0. *)
Definition depth_reset (st : scan_state) : Prop :=
  current_class st = "" -> brace st = 0%Z.

Lemma tracks_depth_reset step :
  tracks step ->
  forall st raw st', depth_reset st -> step st raw = Ok st' -> depth_reset st'.
Proof.
  intros Ht st raw st' HP Hstep.
  destruct (Ht _ _ _ Hstep) as [[_ ->]|(_ & st1 & Hd & Hc & Hb)];
    [assumption|].
  destruct (detect_class_fields _ _ _ Hd) as (_ & _ & Hb1).
  intros Hcls. rewrite Hb.
  destruct (string_dec (current_class st1) "") as [E|E].
  - rewrite (track_brace_idle _ _ E), Hb1. apply HP.
    destruct (string_dec (current_class st) "") as [E0|E0]; [assumption|].
    rewrite <- (detect_class_keeps _ _ _ Hd E0). exact E.
  - destruct (track_brace_active st1 (strip raw) E) as (_ & _ & H3).
    rewrite Hc in Hcls. now apply H3 in Hcls.
Qed.

End BraceDepth.

(** ** Tokens are substrings; the keys of a scan only grow *)

Section TokensAndKeys.

Lemma prefix_nil s : prefix "" s = true.
Proof. now destruct s. Qed.

Lemma prefix_cons c a b : prefix (String c a) (String c b) = prefix a b.
Proof.
  simpl. destruct (ascii_dec c c) as [_|n]; [reflexivity|now elim n].
Qed.

Lemma contains_prefix t s : prefix t s = true -> contains t s = true.
Proof. intros H. destruct s; unfold contains; now rewrite H. Qed.

Lemma contains_cons t c s : contains t s = true -> contains t (String c s) = true.
Proof.
  intros H. unfold contains; fold contains. rewrite H. apply orb_true_r.
Qed.

(** The first token of a text that starts with one is a prefix of it. *)
Lemma split_head_prefix s :
  starts_token s = true ->
  exists t ts, split s = t :: ts /\ prefix t s = true.
Proof.
  induction s as [|c s IH]; [discriminate|].
  cbn [starts_token]. intros Hc. apply negb_true_iff in Hc.
  unfold split; fold split. rewrite Hc.
  destruct (starts_token s) eqn:E.
  - destruct (IH eq_refl) as (t & ts & -> & Hp). cbn [glue].
    exists (String c t), ts. split; [reflexivity|]. now rewrite prefix_cons.
  - exists (String c ""), (split s). split; [reflexivity|].
    rewrite prefix_cons. apply prefix_nil.
Qed.

Lemma split_token_contains s : forall t, In t (split s) -> contains t s = true.
Proof.
  induction s as [|c s IH]; intros t; [intros []|].
  unfold split; fold split.
  destruct (is_space c) eqn:Hc.
  - intros H. apply contains_cons. now apply IH.
  - destruct (starts_token s) eqn:E.
    + destruct (split_head_prefix s E) as (t0 & ts & Hs & Hp).
      rewrite Hs. cbn [glue]. intros [<-|H].
      * apply contains_prefix. now rewrite prefix_cons.
      * apply contains_cons, IH. rewrite Hs. now right.
    + intros [<-|H].
      * apply contains_prefix. rewrite prefix_cons. apply prefix_nil.
      * apply contains_cons. now apply IH.
Qed.

(** A line of either scanner changes the mapping by at most one assignment. *)
Lemma enum_line_out st raw st' :
  enum_line st raw = Ok st' ->
  out st' = out st \/ exists k v, out st' = setitem k v (out st).
Proof.
  destruct (skipped (strip raw)) eqn:E.
  - rewrite (enum_line_skipped _ _ E). intros H; injection H as <-. now left.
  - rewrite (enum_line_scanned _ _ E), enum_body_spec.
    destruct (detect_class st (strip raw)) as [st1|] eqn:D; cbn [bind];
      [|discriminate].
    destruct (detect_class_fields _ _ _ D) as (Ho1 & _).
    pose proof (track_brace_out st1 (strip raw)) as Ho2.
    set (st2 := track_brace st1 (strip raw)) in *.
    unfold enum_action.
    destruct (contains "enum" (strip raw)).
    + destruct (List.find _ _); intros H; injection H as <-; cbn.
      * right. do 2 eexists. now rewrite Ho2, Ho1.
      * left; congruence.
    + destruct (contains "}" (strip raw));
        [intros H; injection H as <-; left; cbn; congruence|].
      destruct (negb _); [|intros H; injection H as <-; left; congruence].
      destruct (split (strip raw));
        [intros H; injection H as <-; left; congruence|].
      unfold append_item. destruct (lookup _ _); cbn [bind]; [|discriminate].
      intros H; injection H as <-; cbn. right. do 2 eexists.
      now rewrite Ho2, Ho1.
Qed.

Lemma bitflags_line_out st raw st' :
  bitflags_line st raw = Ok st' ->
  out st' = out st \/ exists k v, out st' = setitem k v (out st).
Proof.
  destruct (skipped (strip raw)) eqn:E.
  - rewrite (bitflags_line_skipped _ _ E). intros H; injection H as <-.
    now left.
  - rewrite (bitflags_line_scanned _ _ E), bitflags_body_spec.
    destruct (detect_class st (strip raw)) as [st1|] eqn:D; cbn [bind];
      [|discriminate].
    destruct (detect_class_fields _ _ _ D) as (Ho1 & _).
    pose proof (track_brace_out st1 (strip raw)) as Ho2.
    set (st2 := track_brace st1 (strip raw)) in *.
    unfold bitflags_action.
    destruct (contains "BEGIN_BITFLAGS" (strip raw)).
    + destruct (paren_name _); cbn [bind]; [|discriminate].
      intros H; injection H as <-; cbn. right. do 2 eexists.
      now rewrite Ho2, Ho1.
    + destruct (negb _); [|intros H; injection H as <-; left; congruence].
      destruct (contains "END_BITFLAGS" (strip raw));
        [intros H; injection H as <-; left; cbn; congruence|].
      destruct (contains "FLAG" (strip raw));
        [|intros H; injection H as <-; left; congruence].
      destruct (paren_name _) as [n|]; cbn [bind]; [|discriminate].
      destruct (0 <? String.length n)%nat;
        [|intros H; injection H as <-; left; congruence].
      unfold append_item. destruct (lookup _ _); cbn [bind]; [|discriminate].
      intros H; injection H as <-; cbn. right. do 2 eexists.
      now rewrite Ho2, Ho1.
Qed.

(** A key, once in the mapping, stays in it. *)
Lemma scan_keys_grow step k :
  (forall st raw st', step st raw = Ok st' ->
     out st' = out st \/ exists k0 v, out st' = setitem k0 v (out st)) ->
  forall lines st st',
    In k (keys (out st)) -> scan step st lines = Ok st' ->
    In k (keys (out st')).
Proof.
  intros Hstep.
  apply (scan_invariant step (fun st => In k (keys (out st)))).
  intros st raw st' Hin H.
  destruct (Hstep _ _ _ H) as [-> | (k0 & v & ->)]; [assumption|].
  now apply setitem_keys_incl.
Qed.

End TokensAndKeys.

(** ** The entry of a key depends on the lines from its last declaration on *)

Section Redeclaration.

(** Two states with the same active enum, enclosing type and depth. *)
Definition same_ctl (a b : scan_state) : Prop :=
  current_enum a = current_enum b /\
  current_class a = current_class b /\
  brace a = brace b.

Definition open_ok (st : scan_state) : Prop :=
  current_enum st <> "" -> In (current_enum st) (keys (out st)).

(** Two states that differ at most in the entries of keys other than [k]. *)
Definition agree_on (k : string) (a b : scan_state) : Prop :=
  same_ctl a b /\ lookup k (out a) = lookup k (out b) /\
  open_ok a /\ open_ok b.

Lemma detect_class_sim a b line a1 :
  current_class a = current_class b ->
  detect_class a line = Ok a1 ->
  exists b1, detect_class b line = Ok b1 /\
             current_class a1 = current_class b1.
Proof.
  intros Hc. rewrite !detect_class_spec, Hc.
  destruct (_ && _ && _); [|intros H; injection H as <-; eauto].
  destruct (class_of (split line)) as [[cc|e]|]; cbn [bind]; intros H;
    try discriminate; injection H as <-; eauto.
Qed.

Lemma track_brace_sim a b line :
  current_class a = current_class b -> brace a = brace b ->
  current_class (track_brace a line) = current_class (track_brace b line) /\
  brace (track_brace a line) = brace (track_brace b line).
Proof.
  intros Hc Hb. unfold track_brace. rewrite Hc.
  destruct (negb _); [|auto].
  destruct (contains "{" line), (contains "}" line);
    cbn [brace set_brace]; rewrite ?Hb;
    try match goal with
        | |- context [Z.eqb ?x ?y] => destruct (Z.eqb x y)
        end; cbn; auto.
Qed.

(** The shared tracking code keeps two states in step. *)
Lemma tracking_sim a b line a1 :
  same_ctl a b ->
  detect_class a line = Ok a1 ->
  exists b1,
    detect_class b line = Ok b1 /\
    same_ctl (track_brace a1 line) (track_brace b1 line) /\
    out (track_brace a1 line) = out a /\
    out (track_brace b1 line) = out b /\
    current_enum (track_brace a1 line) = current_enum a.
Proof.
  intros (He & Hc & Hb) Ha.
  destruct (detect_class_sim a b line a1 Hc Ha) as (b1 & Hb1 & Hc1).
  destruct (detect_class_fields _ _ _ Ha) as (Hoa & Hea & Hba).
  destruct (detect_class_fields _ _ _ Hb1) as (Hob & Heb & Hbb).
  exists b1. split; [assumption|].
  destruct (track_brace_sim a1 b1 line Hc1) as [T1 T2]; [congruence|].
  repeat split; rewrite ?track_brace_enum, ?track_brace_out; congruence.
Qed.

Lemma agree_declare k a b :
  same_ctl a b -> agree_on k (declare a k) (declare b k).
Proof.
  intros (He & Hc & Hb). repeat split; cbn; try assumption.
  - now rewrite !lookup_setitem_same.
  - intros _; apply setitem_in_keys.
  - intros _; apply setitem_in_keys.
Qed.

Lemma agree_declare_other k k0 a b :
  agree_on k a b -> agree_on k (declare a k0) (declare b k0).
Proof.
  intros ((He & Hc & Hb) & Hl & _ & _).
  destruct (string_dec k k0) as [->|Hne];
    [now apply agree_declare|].
  repeat split; cbn; try assumption.
  - now rewrite !lookup_setitem_other.
  - intros _; apply setitem_in_keys.
  - intros _; apply setitem_in_keys.
Qed.

Lemma agree_close k a b : agree_on k a b -> agree_on k (set_enum a "") (set_enum b "").
Proof.
  intros ((He & Hc & Hb) & Hl & _ & _).
  repeat split; cbn; try assumption; intros H; now elim H.
Qed.

(** Appending a name to the open declaration keeps two states in step. *)
Lemma agree_append k a b name a' :
  agree_on k a b ->
  current_enum a <> "" ->
  (d <- append_item (current_enum a) name (out a) ;; Ok (set_out a d)) = Ok a' ->
  exists b',
    (d <- append_item (current_enum b) name (out b) ;; Ok (set_out b d)) = Ok b' /\
    agree_on k a' b'.
Proof.
  intros ((He & Hc & Hb) & Hl & Hoa & Hob) Hne. unfold append_item.
  destruct (lookup (current_enum a) (out a)) as [va|] eqn:Ea; cbn [bind];
    [|discriminate].
  intros H; injection H as <-.
  assert (Hinb : In (current_enum b) (keys (out b)))
    by (apply Hob; congruence).
  apply lookup_in_keys in Hinb.
  destruct (lookup (current_enum b) (out b)) as [vb|] eqn:Eb;
    [|now elim Hinb]. cbn [bind].
  eexists; split; [reflexivity|].
  repeat split; cbn; try assumption.
  - destruct (string_dec k (current_enum a)) as [->|Hk].
    + rewrite <- He in *. rewrite !lookup_setitem_same.
      rewrite Hl, Eb in Ea. now injection Ea as ->.
    + rewrite !lookup_setitem_other by congruence. assumption.
  - intros _; apply setitem_in_keys.
  - intros _; apply setitem_in_keys.
Qed.

Lemma agree_tracking k a b a2 b2 :
  agree_on k a b -> same_ctl a2 b2 ->
  out a2 = out a -> out b2 = out b -> current_enum a2 = current_enum a ->
  agree_on k a2 b2.
Proof.
  intros ((He & _) & Hl & Hoa & Hob) Hctl Ha Hb Hea.
  pose proof Hctl as (He2 & _).
  repeat split; try apply Hctl.
  - now rewrite Ha, Hb.
  - unfold open_ok. rewrite Ha, Hea. exact Hoa.
  - unfold open_ok. rewrite Hb. replace (current_enum b2) with (current_enum b)
      by congruence. exact Hob.
Qed.

Definition enum_start (line : string) : bool :=
  contains "enum" line &&
  match List.find is_name_token (split line) with
  | Some _ => true
  | None => false
  end.

Definition bitflags_start (line : string) : bool :=
  contains "BEGIN_BITFLAGS" line.

Lemma enum_action_sim k a b line a' :
  agree_on k a b ->
  enum_action a line = Ok a' ->
  exists b', enum_action b line = Ok b' /\ agree_on k a' b'.
Proof.
  intros Hag. pose proof Hag as ((He & Hc & Hb) & _).
  unfold enum_action. rewrite <- He, <- Hc.
  destruct (contains "enum" line).
  - destruct (List.find _ _); intros H; injection H as <-;
      eexists; (split; [reflexivity|]);
      [now apply agree_declare_other|assumption].
  - destruct (contains "}" line).
    + intros H; injection H as <-. eexists; split; [reflexivity|].
      now apply agree_close.
    + destruct (negb _) eqn:E; [|intros H; injection H as <-; eauto].
      destruct (split line) as [|t ts]; [intros H; injection H as <-; eauto|].
      apply negb_true_iff, String.eqb_neq in E.
      intros H. rewrite He. exact (agree_append k a b t a' Hag E H).
Qed.

Lemma bitflags_action_sim k a b line a' :
  agree_on k a b ->
  bitflags_action a line = Ok a' ->
  exists b', bitflags_action b line = Ok b' /\ agree_on k a' b'.
Proof.
  intros Hag. pose proof Hag as ((He & Hc & Hb) & _).
  unfold bitflags_action. rewrite <- He, <- Hc.
  destruct (contains "BEGIN_BITFLAGS" line).
  - destruct (paren_name line); cbn [bind]; [|discriminate].
    intros H; injection H as <-. eexists; split; [reflexivity|].
    now apply agree_declare_other.
  - destruct (negb _) eqn:E; [|intros H; injection H as <-; eauto].
    destruct (contains "END_BITFLAGS" line).
    + intros H; injection H as <-. eexists; split; [reflexivity|].
      now apply agree_close.
    + destruct (contains "FLAG" line); [|intros H; injection H as <-; eauto].
      destruct (paren_name line) as [n|]; cbn [bind]; [|discriminate].
      destruct (0 <? String.length n)%nat;
        [|intros H; injection H as <-; eauto].
      apply negb_true_iff, String.eqb_neq in E.
      intros H. rewrite He. exact (agree_append k a b n a' Hag E H).
Qed.

Lemma enum_line_sim k a b raw a' :
  agree_on k a b ->
  enum_line a raw = Ok a' ->
  exists b', enum_line b raw = Ok b' /\ agree_on k a' b'.
Proof.
  intros Hag. destruct (skipped (strip raw)) eqn:E.
  - rewrite !(enum_line_skipped _ _ E). intros H; injection H as <-; eauto.
  - rewrite !(enum_line_scanned _ _ E), !enum_body_spec.
    destruct (detect_class a (strip raw)) as [a1|] eqn:D; cbn [bind];
      [|discriminate].
    destruct (tracking_sim a b _ a1 (proj1 Hag) D) as (b1 & -> & T).
    cbn [bind]. destruct T as (T1 & T2 & T3 & T4).
    apply enum_action_sim. exact (agree_tracking k a b _ _ Hag T1 T2 T3 T4).
Qed.

Lemma bitflags_line_sim k a b raw a' :
  agree_on k a b ->
  bitflags_line a raw = Ok a' ->
  exists b', bitflags_line b raw = Ok b' /\ agree_on k a' b'.
Proof.
  intros Hag. destruct (skipped (strip raw)) eqn:E.
  - rewrite !(bitflags_line_skipped _ _ E). intros H; injection H as <-; eauto.
  - rewrite !(bitflags_line_scanned _ _ E), !bitflags_body_spec.
    destruct (detect_class a (strip raw)) as [a1|] eqn:D; cbn [bind];
      [|discriminate].
    destruct (tracking_sim a b _ a1 (proj1 Hag) D) as (b1 & -> & T).
    cbn [bind]. destruct T as (T1 & T2 & T3 & T4).
    apply bitflags_action_sim.
    exact (agree_tracking k a b _ _ Hag T1 T2 T3 T4).
Qed.

(** A declaration line opens its key in the same way in two states that
    have the same active enum, enclosing type and depth. *)
Lemma enum_decl_sim a b raw a' :
  same_ctl a b ->
  skipped (strip raw) = false ->
  enum_start (strip raw) = true ->
  enum_line a raw = Ok a' ->
  exists a2 b2,
    a' = declare a2 (current_enum a') /\ out a2 = out a /\
    enum_line b raw = Ok (declare b2 (current_enum a')) /\ same_ctl a2 b2.
Proof.
  intros Hctl Hs Hstart. unfold enum_start in Hstart.
  apply andb_prop in Hstart as [He Hfind].
  rewrite !(enum_line_scanned _ _ Hs), !enum_body_spec.
  rewrite !(detect_class_enum _ _ He); cbn [bind].
  unfold enum_action. rewrite He.
  destruct (List.find _ _) as [t|]; [|discriminate].
  destruct Hctl as (Hce & Hc & Hb).
  destruct (track_brace_sim a b (strip raw) Hc Hb) as [T1 T2].
  intros H; injection H as <-. cbn [current_enum declare].
  exists (track_brace a (strip raw)), (track_brace b (strip raw)).
  split; [reflexivity|]. split; [apply track_brace_out|].
  split; [now rewrite T1|].
  repeat split; rewrite ?track_brace_enum; assumption.
Qed.

Lemma bitflags_decl_sim a b raw a' :
  same_ctl a b ->
  skipped (strip raw) = false ->
  bitflags_start (strip raw) = true ->
  bitflags_line a raw = Ok a' ->
  exists a2 b2,
    a' = declare a2 (current_enum a') /\ out a2 = out a /\
    bitflags_line b raw = Ok (declare b2 (current_enum a')) /\ same_ctl a2 b2.
Proof.
  intros Hctl Hs Hstart. unfold bitflags_start in Hstart.
  rewrite !(bitflags_line_scanned _ _ Hs), !bitflags_body_spec.
  destruct (detect_class a (strip raw)) as [a1|] eqn:D; cbn [bind];
    [|discriminate].
  destruct (tracking_sim a b _ a1 Hctl D) as (b1 & -> & T1 & T2 & T3 & T4).
  cbn [bind]. unfold bitflags_action. rewrite Hstart.
  destruct (paren_name (strip raw)) as [n|]; cbn [bind]; [|discriminate].
  intros H; injection H as <-. cbn [current_enum declare].
  exists (track_brace a1 (strip raw)), (track_brace b1 (strip raw)).
  split; [reflexivity|]. split; [assumption|].
  split; [|assumption]. destruct T1 as (_ & <- & _). reflexivity.
Qed.

Section Generic.

Variable step : scan_state -> string -> result scan_state.
Variable start : string -> bool.

Hypothesis step_sim : forall k a b raw a',
  agree_on k a b -> step a raw = Ok a' ->
  exists b', step b raw = Ok b' /\ agree_on k a' b'.

Hypothesis step_decl : forall a b raw a',
  same_ctl a b -> skipped (strip raw) = false -> start (strip raw) = true ->
  step a raw = Ok a' ->
  exists a2 b2,
    a' = declare a2 (current_enum a') /\ out a2 = out a /\
    step b raw = Ok (declare b2 (current_enum a')) /\ same_ctl a2 b2.

Hypothesis step_wf : forall st raw st', wf st -> step st raw = Ok st' -> wf st'.

Hypothesis step_out : forall st raw st', step st raw = Ok st' ->
  out st' = out st \/ exists k v, out st' = setitem k v (out st).

Lemma scan_sim k lines : forall a b a',
  agree_on k a b -> scan step a lines = Ok a' ->
  exists b', scan step b lines = Ok b' /\ agree_on k a' b'.
Proof.
  induction lines as [|l lines IH]; intros a b a' Hag; cbn [scan].
  - intros H; injection H as <-; eauto.
  - destruct (step a l) as [a1|] eqn:E; cbn [bind]; [|discriminate].
    destruct (step_sim k a b l a1 Hag E) as (b1 & -> & Hag1). cbn [bind].
    now apply IH.
Qed.

(** The entry of a key that is declared again: it is emptied in place, the
    returned mapping holds the key once, and its value list is the one a scan
    of the lines from the later declaration on builds from an empty mapping. *)
Lemma redeclared pre hdr post st st1 d :
  scan step init_state pre = Ok st ->
  skipped (strip hdr) = false ->
  start (strip hdr) = true ->
  step st hdr = Ok st1 ->
  In (current_enum st1) (keys (out st)) ->
  (st' <- scan step init_state (pre ++ hdr :: post) ;; Ok (out st')) = Ok d ->
  lookup (current_enum st1) (out st1) = Some [] /\
  keys (out st1) = keys (out st) /\
  count_occ string_dec (keys d) (current_enum st1) = 1 /\
  exists st0,
    scan step (set_out st []) (hdr :: post) = Ok st0 /\
    lookup (current_enum st1) d = lookup (current_enum st1) (out st0).
Proof.
  intros Hpre Hs Hstart Hstep Hin.
  assert (Hctl : same_ctl st (set_out st [])) by (repeat split).
  destruct (step_decl st (set_out st []) hdr st1 Hctl Hs Hstart Hstep)
    as (a2 & b2 & Hst1 & Ho2 & Hb & Hctl2).
  rewrite scan_app, Hpre; cbn [bind scan]. rewrite Hstep; cbn [bind].
  destruct (scan step st1 post) as [st'|] eqn:Hpost; cbn [bind];
    [|discriminate].
  intros H; injection H as <-.
  assert (Hwf1 : wf st1).
  { apply (step_wf st hdr); [|assumption].
    apply (scan_invariant step wf step_wf pre init_state); [apply wf_init|
    assumption]. }
  assert (Hwf' : wf st')
    by (apply (scan_invariant step wf step_wf post st1); assumption).
  split; [rewrite Hst1 at 2; cbn; apply lookup_setitem_same|].
  split; [rewrite Hst1; cbn; rewrite Ho2; now apply keys_setitem_in|].
  split.
  - apply NoDup_count_occ'; [apply Hwf'|].
    apply (scan_keys_grow step _ step_out post st1); [|assumption].
    rewrite Hst1; cbn. apply setitem_in_keys.
  - rewrite Hb; cbn [bind].
    assert (Hag : agree_on (current_enum st1) st1
                    (declare b2 (current_enum st1))).
    { rewrite Hst1 at 2. now apply agree_declare. }
    destruct (scan_sim _ post _ _ _ Hag Hpost) as (b' & Hb' & Hag').
    exists b'. split; [assumption|]. apply Hag'.
Qed.

End Generic.

End Redeclaration.

(** * The claims *)

(** C1, as stated, fails: an enumerator whose name holds the substring
    [using] is skipped with its line. The block below has two enumerator
    lines, each carrying one token, and the scan records one name. *)
Lemma C1_counterexample :
  let hdr := "enum Mode {" in
  let body := ["Fusing"; "Solid"] in
  let close := "}" in
  contains "enum" hdr = true /\
  Forall (fun raw => strip raw <> "" /\ exists t, split raw = [t]) body /\
  contains "}" close = true /\
  parse_enum (hdr :: body ++ [close]) = Ok [("Mode", ["Solid"])] /\
  ~ (exists k vs, parse_enum (hdr :: body ++ [close]) = Ok [(k, vs)] /\
                  List.length vs = List.length body).
Proof.
  cbv zeta. split; [reflexivity|]. split.
  - repeat constructor; try (vm_compute; discriminate); eexists; reflexivity.
  - split; [reflexivity|]. split; [reflexivity|].
    intros (k & vs & H & Hlen). vm_compute in H. injection H as _ <-.
    discriminate Hlen.
Qed.

(** C1 (amended): a header line that is scanned, holds [enum] and has a name
    token [name]; then N enumerator lines (scanned, free of [enum] and of a
    closing brace, without a token [class]); then a closing line. The enum
    scanner returns the single entry [name], whose value list holds the first
    token of each of the N lines, in source order. *)
Theorem C1_enum_block hdr body close name :
  skipped (strip hdr) = false ->
  contains "enum" (strip hdr) = true ->
  List.find is_name_token (split (strip hdr)) = Some name ->
  forallb enumerator_line body = true ->
  closing_line close = true ->
  let names := map (fun raw => first_token (strip raw)) body in
  parse_enum (hdr :: body ++ [close]) = Ok [(name, names)] /\
  List.length names = List.length body.
Proof.
  intros Hs He Hname Hbody Hclose names.
  split; [|apply length_map].
  unfold parse_enum. cbn [scan].
  rewrite (enum_line_scanned _ _ Hs), enum_body_spec.
  rewrite (detect_class_enum _ _ He); cbn [bind].
  rewrite track_brace_idle by reflexivity.
  unfold enum_action at 1. rewrite He, Hname; cbn [bind].
  change (qualified (current_class init_state) name) with name.
  pose proof (find_name_token_nonempty _ _ Hname) as Hne.
  rewrite scan_app.
  destruct (enumerator_lines_scan body (declare init_state name) [] Hbody)
    as (st2 & H2 & Ho & Hce); [exact Hne| |].
  - cbn. now rewrite String.eqb_refl.
  - rewrite H2; cbn [bind scan].
    unfold closing_line in Hclose.
    repeat (apply andb_prop in Hclose as [Hclose ?]).
    repeat match goal with
           | X : negb _ = true |- _ => apply negb_true_iff in X
           end.
    rewrite (enum_line_scanned _ _ Hclose), enum_body_spec.
    rewrite (detect_class_quiet _ _ (has_token_false _ _ H)); cbn [bind].
    unfold enum_action. rewrite H1, H0. cbn [bind out set_enum].
    rewrite track_brace_out, Ho. cbn. now rewrite String.eqb_refl.
Qed.

Lemma C1_enum_block_witness :
  parse_enum ["enum class Color {"; "  Red"; "  Green"; "  Blue"; "};"] =
    Ok [("Color", ["Red"; "Green"; "Blue"])] /\
  List.length ["Red"; "Green"; "Blue"] = 3.
Proof.
  exact (C1_enum_block "enum class Color {" ["  Red"; "  Green"; "  Blue"] "};"
           "Color" eq_refl eq_refl eq_refl eq_refl eq_refl).
Defined.

(** C2, as stated, fails: a flag whose name holds the substring [using] is
    skipped with its line. The block below has two lines [FLAG(x)] with a
    non-empty [x], and the scan records one flag name. *)
Lemma C2_counterexample :
  let xs := ["Housing"; "Open"] in
  let lines :=
    "BEGIN_BITFLAGS(Mask)" :: map (fun x => "FLAG(" ++ x ++ ")")%string xs
    ++ ["END_BITFLAGS"] in
  Forall (fun x => x <> "") xs /\
  parse_bitflags lines = Ok [("Mask", ["Open"])] /\
  parse_bitflags lines <> Ok [("Mask", xs)].
Proof.
  cbv zeta. split; [repeat constructor; discriminate|].
  split; [reflexivity|]. vm_compute. discriminate.
Qed.

(** C2 (amended): one line [BEGIN_BITFLAGS(name)], then K lines [FLAG(x)],
    then a line [END_BITFLAGS], each up to surrounding whitespace, where no
    line holds [using] or a token [class], no [x] holds [BEGIN_BITFLAGS] or
    [END_BITFLAGS], neither [name] nor any [x] holds a closing parenthesis,
    and [name] and every [x] are non-blank. The bitflag scanner returns the
    single entry keyed by the trimmed [name], whose value list holds the K
    trimmed flag names in source order. *)
Theorem C2_bitflags_block begin_raw raws end_raw name xs :
  strip begin_raw = ("BEGIN_BITFLAGS(" ++ name ++ ")")%string ->
  begin_name_ok name = true ->
  Forall2 (fun raw x => strip raw = ("FLAG(" ++ x ++ ")")%string) raws xs ->
  forallb flag_name_ok xs = true ->
  strip end_raw = "END_BITFLAGS" ->
  parse_bitflags (begin_raw :: raws ++ [end_raw]) =
    Ok [(strip name, map strip xs)] /\
  List.length (map strip xs) = List.length raws.
Proof.
  intros Hb Hname Hraws Hxs Hend. split.
  2:{ rewrite length_map. symmetry. exact (Forall2_length Hraws). }
  unfold begin_name_ok in Hname.
  repeat (apply andb_prop in Hname as [Hname ?]).
  repeat match goal with
         | X : negb _ = true |- _ => apply negb_true_iff in X
         end.
  unfold parse_bitflags. cbn [scan].
  rewrite bitflags_line_scanned
    by (rewrite Hb; apply not_skipped; [discriminate|assumption]).
  rewrite Hb, bitflags_body_spec.
  rewrite (detect_class_quiet _ _ (has_token_false _ _ H1)); cbn [bind].
  rewrite track_brace_idle by reflexivity.
  unfold bitflags_action at 1.
  replace (contains "BEGIN_BITFLAGS" ("BEGIN_BITFLAGS(" ++ name ++ ")")) with true
    by (unfold contains; simpl; now destruct name).
  assert (Hp : paren_name ("BEGIN_BITFLAGS(" ++ name ++ ")") = Ok (strip name))
    by exact (paren_name_spec "BEGIN_BITFLAGS" name "" eq_refl eq_refl H0).
  rewrite Hp; cbn [bind].
  change (qualified (current_class init_state) (strip name)) with (strip name).
  apply is_empty_false in H.
  rewrite scan_app.
  destruct (flag_lines_scan raws xs Hraws (declare init_state (strip name)) []
              Hxs) as (st2 & H2 & Ho & Hce); [exact H| |].
  - cbn. now rewrite String.eqb_refl.
  - rewrite H2; cbn [bind scan].
    rewrite bitflags_line_scanned by (now rewrite Hend).
    rewrite Hend, bitflags_body_spec.
    rewrite detect_class_quiet by (vm_compute; intuition discriminate).
    cbn [bind].
    pose proof (track_brace_out st2 "END_BITFLAGS") as Ho3.
    pose proof (track_brace_enum st2 "END_BITFLAGS") as He3.
    set (st3 := track_brace st2 "END_BITFLAGS") in *.
    unfold bitflags_action.
    change (contains "BEGIN_BITFLAGS" "END_BITFLAGS") with false.
    change (contains "END_BITFLAGS" "END_BITFLAGS") with true.
    cbv iota.
    assert (Hopen : negb (String.eqb (current_enum st3) "") = true).
    { rewrite He3, Hce. cbn. apply negb_true_iff, String.eqb_neq, H. }
    rewrite Hopen. cbn [bind out set_enum].
    rewrite Ho3, Ho. cbn. now rewrite String.eqb_refl.
Qed.

Lemma C2_bitflags_block_witness :
  parse_bitflags ["BEGIN_BITFLAGS(Mask)"; "  FLAG(A)"; "  FLAG( B )";
                  "END_BITFLAGS"] = Ok [("Mask", ["A"; "B"])] /\
  List.length ["A"; "B"] = 2.
Proof.
  refine (C2_bitflags_block "BEGIN_BITFLAGS(Mask)" ["  FLAG(A)"; "  FLAG( B )"]
            "END_BITFLAGS" "Mask" ["A"; " B "] eq_refl eq_refl _ eq_refl eq_refl).
  repeat constructor.
Defined.

(** C3, as stated, fails in both directions: the scanner tests for the
    substring [enum], not for the token. The line [Renumbered] has no token
    [enum], yet it starts a declaration; the line [enum {] has the token
    [enum], yet it starts none and the next name goes to the enum before. *)
Lemma C3_counterexample :
  has_token "enum" "Renumbered" = false /\
  parse_enum ["enum A {"; "Renumbered"; "}"] =
    Ok [("A", []); ("Renumbered", [])] /\
  has_token "enum" "enum {" = true /\
  parse_enum ["enum A {"; "x"; "enum {"; "y"; "}"] = Ok [("A", ["x"; "y"])].
Proof. repeat split; reflexivity. Qed.

(** C3 (amended): on a scanned line (non-blank, without [using]) of the enum
    scanner, in a well-formed state:
    - a line holding the substring [enum] that has a token other than [enum],
      [class] and [{] starts a new declaration, named by the first such
      token, qualified by the enclosing type that is active after the line's
      brace tracking, with an empty value list;
    - a line holding [enum] without such a token declares nothing and leaves
      the active enum as it is;
    - any other line, when the enclosing-type detection does not fault, ends
      the enum if it holds a closing brace; otherwise, while an enum is
      active, its first token is recorded as the next enumerator name, and
      with no enum active nothing is recorded. *)
Theorem C3_enum_line st raw :
  let line := strip raw in
  skipped line = false ->
  wf st ->
  (contains "enum" line = true ->
   let st2 := track_brace st line in
   (forall t, List.find is_name_token (split line) = Some t ->
      enum_line st raw = Ok (declare st2 (qualified (current_class st2) t))) /\
   (List.find is_name_token (split line) = None -> enum_line st raw = Ok st2))
  /\
  (contains "enum" line = false ->
   forall st1, detect_class st line = Ok st1 ->
   let st2 := track_brace st1 line in
   (contains "}" line = true -> enum_line st raw = Ok (set_enum st2 "")) /\
   (contains "}" line = false -> current_enum st <> "" ->
      exists v, lookup (current_enum st) (out st) = Some v /\
        enum_line st raw =
          Ok (set_out st2 (setitem (current_enum st)
                             (v ++ [first_token line]) (out st)))) /\
   (contains "}" line = false -> current_enum st = "" ->
      enum_line st raw = Ok st2)).
Proof.
  intros line Hs Hwf.
  rewrite (enum_line_scanned _ _ Hs), enum_body_spec. fold line. split.
  - intros He st2. rewrite (detect_class_enum _ _ He); cbn [bind].
    fold st2. unfold enum_action. rewrite He. split.
    + now intros t ->.
    + now intros ->.
  - intros He st1 Hd st2. rewrite Hd; cbn [bind]. fold st2.
    destruct (detect_class_fields _ _ _ Hd) as (Ho1 & He1 & _).
    assert (Ho2 : out st2 = out st)
      by (unfold st2; now rewrite track_brace_out).
    assert (He2 : current_enum st2 = current_enum st)
      by (unfold st2; now rewrite track_brace_enum).
    unfold enum_action. rewrite He. split; [|split].
    + now intros ->.
    + intros Hb Hne. rewrite Hb, He2.
      destruct (wf_lookup _ Hwf Hne) as [v Hv]. exists v; split; [exact Hv|].
      apply String.eqb_neq in Hne. rewrite Hne; cbn [negb].
      destruct (split_strip_nonempty raw (skipped_nonempty _ Hs))
        as (t & ts & Hsplit & _).
      fold line in Hsplit. unfold first_token. rewrite Hsplit; cbn [hd].
      rewrite Ho2, (append_item_ok _ _ _ _ Hv). reflexivity.
    + intros Hb Hce. rewrite Hb, He2, Hce. reflexivity.
Qed.

Lemma C3_enum_line_witness :
  enum_line init_state "enum class Color {" = Ok (declare init_state "Color").
Proof.
  exact (proj1 (proj1 (C3_enum_line init_state "enum class Color {"
                         eq_refl wf_init) eq_refl)
               "Color" eq_refl).
Defined.

(** Nested pairs of braces on lines of their own inside the body of [Outer]
    do not end the enclosing type: the enum after them is still qualified. *)
Example nested_pairs_keep_enclosing_type :
  parse_enum ["class Outer {"; "struct P {"; "int x;"; "};"; "enum Inner {";
              "A"; "};"; "};"] = Ok [("Outer::Inner", ["A"])].
Proof. reflexivity. Qed.

(** C4, as stated, fails on lines that hold [using]: they are skipped before
    the depth is looked at. With [Outer] active at depth 1, the line
    [struct Tag { using type = int;] holds an opening brace and leaves the
    depth at 1; the closing line after it brings the depth to 0, and the enum
    that follows in the body of [Outer] is no longer qualified. *)
Lemma C4_counterexample :
  let st := {| out := []; current_enum := ""; current_class := "Outer";
               brace := 1 |} in
  contains "{" (strip "struct Tag { using type = int;") = true /\
  enum_line st "struct Tag { using type = int;" = Ok st /\
  bitflags_line st "struct Tag { using type = int;" = Ok st /\
  parse_enum ["class Outer {"; "struct Tag { using type = int;"; "};";
              "enum Inner {"; "A"; "};"; "};"] = Ok [("Inner", ["A"])].
Proof. repeat split; reflexivity. Qed.

(** C4 (amended): in both scanners, on every line that is scanned (non-blank,
    without [using]) while an enclosing type is active, the depth goes up by
    one if the line holds an opening brace and down by one if it holds a
    closing brace, and the enclosing type is cleared exactly when the line
    holds a closing brace and the depth is back to 0. Consequently, in a scan
    of any lines that starts with an enclosing type active, that type is
    still the active one at the end, unless some line with a closing brace
    brought the depth to 0; up to that line it stayed active. *)
Theorem C4_brace_depth step :
  step = enum_line \/ step = bitflags_line ->
  (forall st raw st1 st',
     skipped (strip raw) = false ->
     detect_class st (strip raw) = Ok st1 ->
     current_class st1 <> "" ->
     step st raw = Ok st' ->
     brace st' = (brace st + b2z (contains "{" (strip raw))
                  - b2z (contains "}" (strip raw)))%Z /\
     (current_class st' = current_class st1 \/ current_class st' = "") /\
     (current_class st' = "" <->
      contains "}" (strip raw) = true /\ brace st' = 0%Z))
  /\
  (forall lines st st',
     current_class st <> "" ->
     scan step st lines = Ok st' ->
     current_class st' = current_class st \/
     exists pre raw post stp stm,
       lines = pre ++ raw :: post /\
       scan step st pre = Ok stp /\
       current_class stp = current_class st /\
       step stp raw = Ok stm /\
       current_class stm = "" /\ brace stm = 0%Z /\
       contains "}" (strip raw) = true).
Proof.
  intros Hstep.
  assert (Ht : tracks step)
    by (destruct Hstep as [-> | ->];
        [apply enum_line_tracks|apply bitflags_line_tracks]).
  split.
  - intros st raw st1 st'. now apply tracked_line.
  - intros lines st st'. now apply tracked_scan.
Qed.

Lemma C4_brace_depth_witness :
  let st := {| out := []; current_enum := ""; current_class := "Outer";
               brace := 1 |} in
  let st' := {| out := []; current_enum := ""; current_class := "Outer";
                brace := 2 |} in
  enum_line st "  struct P {" = Ok st' /\
  brace st' = (brace st + b2z true - b2z false)%Z /\
  (current_class st' = "Outer" \/ current_class st' = "") /\
  (current_class st' = "" <-> false = true /\ brace st' = 0%Z).
Proof.
  cbv zeta. split; [reflexivity|].
  apply (proj1 (C4_brace_depth enum_line (or_introl eq_refl))
           {| out := []; current_enum := ""; current_class := "Outer";
              brace := 1 |} "  struct P {"
           {| out := []; current_enum := ""; current_class := "Outer";
              brace := 1 |}).
  - reflexivity.
  - reflexivity.
  - discriminate.
  - reflexivity.
Defined.


Lemma track_brace_open st line :
  contains "}" line = false ->
  current_class (track_brace st line) = current_class st.
Proof.
  intros H. unfold track_brace. rewrite H.
  now destruct (negb _), (contains "{" line).
Qed.









Lemma qualified_nonempty cls t : t <> "" -> qualified cls t <> "".
Proof.
  intros Ht. unfold qualified. destruct cls; cbn; [assumption|discriminate].
Qed.

(** ** The key that a declaration line opens, read off the input *)

Section DeclaredKeys.

(** The enclosing-type tracking of one line, the part that both scanners
    share, on its own. *)
Definition track_line (st : scan_state) (raw : string) : result scan_state :=
  let line := strip raw in
  if skipped line then Ok st
  else st1 <- detect_class st line ;; Ok (track_brace st1 line).

(** The key that the enum header [raw] opens after the lines [pre]: its name
    token, qualified by the enclosing type that the tracking gives for the
    text up to and including the header. *)
Definition enum_decl_key (pre : list string) (raw : string) : option string :=
  match scan track_line init_state pre with
  | Ok t =>
      let line := strip raw in
      if skipped line then None
      else if contains "enum" line then
        match List.find is_name_token (split line) with
        | Some n => Some (qualified (current_class (track_brace t line)) n)
        | None => None
        end
      else None
  | Raise _ => None
  end.

(** The key that the [BEGIN_BITFLAGS] line [raw] opens after the lines
    [pre]. *)
Definition bitflags_decl_key (pre : list string) (raw : string)
  : option string :=
  match scan track_line init_state pre with
  | Ok t =>
      let line := strip raw in
      if skipped line then None
      else if contains "BEGIN_BITFLAGS" line then
        match detect_class t line with
        | Ok t1 =>
            match paren_name line with
            | Ok n => Some (qualified (current_class (track_brace t1 line)) n)
            | Raise _ => None
            end
        | Raise _ => None
        end
      else None
  | Raise _ => None
  end.

(** A scanner moves the enclosing type and the depth as the tracking alone
    does. *)
Lemma tracking_alone step :
  tracks step ->
  forall lines a b a',
    current_class a = current_class b -> brace a = brace b ->
    scan step a lines = Ok a' ->
    exists b',
      scan track_line b lines = Ok b' /\
      current_class a' = current_class b' /\ brace a' = brace b'.
Proof.
  intros Ht. induction lines as [|l lines IH]; intros a b a' Hc Hb;
    cbn [scan].
  - intros H; injection H as <-. eauto.
  - destruct (step a l) as [a1|] eqn:E; cbn [bind]; [|discriminate].
    intros Hrest. unfold track_line at 1.
    destruct (Ht _ _ _ E) as [[Hs ->]|(Hs & s1 & Hd & Hc1 & Hb1)]; rewrite Hs.
    + cbn [bind]. exact (IH a b a' Hc Hb Hrest).
    + destruct (detect_class_sim a b _ s1 Hc Hd) as (t1 & Hdt & Hct).
      rewrite Hdt. cbn [bind].
      destruct (detect_class_fields _ _ _ Hd) as (_ & _ & Hbs).
      destruct (detect_class_fields _ _ _ Hdt) as (_ & _ & Hbt).
      destruct (track_brace_sim s1 t1 (strip l) Hct) as [T1 T2];
        [congruence|].
      apply (IH a1 _ a'); [congruence|congruence|assumption].
Qed.

Lemma tracking_from_init step lines st :
  tracks step ->
  scan step init_state lines = Ok st ->
  exists t,
    scan track_line init_state lines = Ok t /\
    current_class st = current_class t /\ brace st = brace t.
Proof.
  intros Ht H.
  exact (tracking_alone step Ht lines init_state init_state st
           eq_refl eq_refl H).
Qed.

(** What the key of an enum header says about the scan. *)
Lemma enum_decl_key_spec pre hdr k st :
  scan enum_line init_state pre = Ok st ->
  enum_decl_key pre hdr = Some k ->
  skipped (strip hdr) = false /\
  enum_start (strip hdr) = true /\
  k <> "" /\
  exists st1,
    enum_line st hdr = Ok st1 /\ current_enum st1 = k /\
    In k (keys (out st1)).
Proof.
  intros Hpre. unfold enum_decl_key.
  destruct (tracking_from_init enum_line pre st enum_line_tracks Hpre)
    as (t & -> & Hc & Hb).
  destruct (skipped (strip hdr)) eqn:Hs; [discriminate|].
  destruct (contains "enum" (strip hdr)) eqn:He; [|discriminate].
  destruct (List.find is_name_token (split (strip hdr))) as [n|] eqn:Hf;
    [|discriminate].
  intros H; injection H as <-.
  destruct (track_brace_sim st t (strip hdr) Hc Hb) as [T1 _].
  rewrite <- T1.
  split; [reflexivity|]. split; [unfold enum_start; now rewrite He, Hf|].
  split; [apply qualified_nonempty; exact (find_name_token_nonempty _ _ Hf)|].
  eexists. split; [|split].
  - rewrite (enum_line_scanned _ _ Hs), enum_body_spec.
    rewrite (detect_class_enum _ _ He). cbn [bind].
    unfold enum_action. rewrite He, Hf. reflexivity.
  - reflexivity.
  - cbn [out declare]. apply setitem_in_keys.
Qed.

(** What the key of a [BEGIN_BITFLAGS] line says about the scan. *)
Lemma bitflags_decl_key_spec pre hdr k st :
  scan bitflags_line init_state pre = Ok st ->
  bitflags_decl_key pre hdr = Some k ->
  skipped (strip hdr) = false /\
  bitflags_start (strip hdr) = true /\
  exists st1,
    bitflags_line st hdr = Ok st1 /\ current_enum st1 = k /\
    In k (keys (out st1)).
Proof.
  intros Hpre. unfold bitflags_decl_key.
  destruct (tracking_from_init bitflags_line pre st bitflags_line_tracks Hpre)
    as (t & -> & Hc & Hb).
  destruct (skipped (strip hdr)) eqn:Hs; [discriminate|].
  destruct (contains "BEGIN_BITFLAGS" (strip hdr)) eqn:Hbg; [|discriminate].
  destruct (detect_class t (strip hdr)) as [t1|] eqn:Hdt; [|discriminate].
  destruct (paren_name (strip hdr)) as [n|] eqn:Hp; [|discriminate].
  intros H; injection H as <-.
  destruct (detect_class_sim t st _ t1 (eq_sym Hc) Hdt) as (s1 & Hds & Hc1).
  destruct (detect_class_fields _ _ _ Hds) as (_ & _ & Hbs).
  destruct (detect_class_fields _ _ _ Hdt) as (_ & _ & Hbt).
  destruct (track_brace_sim t1 s1 (strip hdr) Hc1) as [T1 _]; [congruence|].
  rewrite T1.
  split; [reflexivity|]. split; [exact Hbg|].
  eexists. split; [|split].
  - rewrite (bitflags_line_scanned _ _ Hs), bitflags_body_spec, Hds.
    cbn [bind]. unfold bitflags_action. rewrite Hbg, Hp. reflexivity.
  - reflexivity.
  - cbn [out declare]. apply setitem_in_keys.
Qed.

End DeclaredKeys.

(** ** A key that is declared twice *)

Section Twice.

Variable step : scan_state -> string -> result scan_state.
Variable start : string -> bool.
Variable key : list string -> string -> option string.

Hypothesis step_sim : forall k a b raw a',
  agree_on k a b -> step a raw = Ok a' ->
  exists b', step b raw = Ok b' /\ agree_on k a' b'.

Hypothesis step_decl : forall a b raw a',
  same_ctl a b -> skipped (strip raw) = false -> start (strip raw) = true ->
  step a raw = Ok a' ->
  exists a2 b2,
    a' = declare a2 (current_enum a') /\ out a2 = out a /\
    step b raw = Ok (declare b2 (current_enum a')) /\ same_ctl a2 b2.

Hypothesis step_wf : forall st raw st', wf st -> step st raw = Ok st' -> wf st'.

Hypothesis step_out : forall st raw st', step st raw = Ok st' ->
  out st' = out st \/ exists k v, out st' = setitem k v (out st).

Hypothesis key_spec : forall pre hdr k st,
  scan step init_state pre = Ok st ->
  key pre hdr = Some k ->
  skipped (strip hdr) = false /\
  start (strip hdr) = true /\
  exists st1,
    step st hdr = Ok st1 /\ current_enum st1 = k /\ In k (keys (out st1)).

(** Two declaration lines of the input open the same key [k]: the returned
    mapping holds [k] once, the later line empties the entry in place, and the
    value list returned is the one that the lines from the later declaration
    on build from an empty mapping. *)
Lemma declared_twice pre1 hdr1 mid hdr2 post k d :
  key pre1 hdr1 = Some k ->
  key (pre1 ++ hdr1 :: mid) hdr2 = Some k ->
  (st' <- scan step init_state (pre1 ++ hdr1 :: mid ++ hdr2 :: post) ;;
   Ok (out st')) = Ok d ->
  count_occ string_dec (keys d) k = 1 /\
  exists st st1 st0,
    scan step init_state (pre1 ++ hdr1 :: mid) = Ok st /\
    In k (keys (out st)) /\
    step st hdr2 = Ok st1 /\
    current_enum st1 = k /\
    lookup k (out st1) = Some [] /\
    keys (out st1) = keys (out st) /\
    scan step (set_out st []) (hdr2 :: post) = Ok st0 /\
    lookup k d = lookup k (out st0).
Proof.
  intros K1 K2 Hd.
  assert (Hlist : pre1 ++ hdr1 :: mid ++ hdr2 :: post =
                  (pre1 ++ hdr1 :: mid) ++ hdr2 :: post)
    by (rewrite <- app_assoc; reflexivity).
  rewrite Hlist in Hd.
  destruct (scan step init_state (pre1 ++ hdr1 :: mid)) as [st|] eqn:Hpre.
  2:{ rewrite scan_app, Hpre in Hd. discriminate. }
  assert (Hin : In k (keys (out st))).
  { pose proof Hpre as Hp. rewrite scan_app in Hp.
    destruct (scan step init_state pre1) as [s|] eqn:Hp1; cbn [bind] in Hp;
      [|discriminate].
    destruct (key_spec pre1 hdr1 k s Hp1 K1) as (_ & _ & s1 & E1 & _ & Hk).
    cbn [scan] in Hp. rewrite E1 in Hp. cbn [bind] in Hp.
    exact (scan_keys_grow step k step_out mid s1 st Hk Hp). }
  destruct (key_spec _ hdr2 k st Hpre K2) as (Hs & Hst & st1 & E2 & Hce & _).
  rewrite <- Hce in Hin.
  destruct (redeclared step start step_sim step_decl step_wf step_out
              (pre1 ++ hdr1 :: mid) hdr2 post st st1 d Hpre Hs Hst E2 Hin Hd)
    as (R1 & R2 & R3 & st0 & R4 & R5).
  rewrite Hce in *.
  split; [assumption|]. exists st, st1, st0. repeat split; assumption.
Qed.

End Twice.

(** C6: in either scanner, let two declaration lines of the input open the
    same key: two enum headers with a name token, or two [BEGIN_BITFLAGS]
    lines, that give the same name under the same enclosing type. Whenever
    the scanner returns a mapping, it holds that key exactly once; the later
    line empties the entry in place, without a fault; the value list returned
    is the one that a scan of the lines from the later declaration on builds
    starting from an empty mapping, so nothing of the earlier list is left;
    and if only enumerator lines (flag lines) follow the later declaration,
    the entry holds exactly their names, in order. *)
Theorem C6_redeclaration :
  (forall pre1 hdr1 mid hdr2 post k d,
     enum_decl_key pre1 hdr1 = Some k ->
     enum_decl_key (pre1 ++ hdr1 :: mid) hdr2 = Some k ->
     parse_enum (pre1 ++ hdr1 :: mid ++ hdr2 :: post) = Ok d ->
     count_occ string_dec (keys d) k = 1 /\
     (exists st st1 st0,
        scan enum_line init_state (pre1 ++ hdr1 :: mid) = Ok st /\
        In k (keys (out st)) /\
        enum_line st hdr2 = Ok st1 /\
        current_enum st1 = k /\
        lookup k (out st1) = Some [] /\
        keys (out st1) = keys (out st) /\
        scan enum_line (set_out st []) (hdr2 :: post) = Ok st0 /\
        lookup k d = lookup k (out st0)) /\
     (forall body,
        forallb enumerator_line body = true ->
        exists d',
          parse_enum (pre1 ++ hdr1 :: mid ++ hdr2 :: body) = Ok d' /\
          lookup k d' =
            Some (map (fun raw => first_token (strip raw)) body)))
  /\
  (forall pre1 hdr1 mid hdr2 post k d,
     bitflags_decl_key pre1 hdr1 = Some k ->
     bitflags_decl_key (pre1 ++ hdr1 :: mid) hdr2 = Some k ->
     parse_bitflags (pre1 ++ hdr1 :: mid ++ hdr2 :: post) = Ok d ->
     count_occ string_dec (keys d) k = 1 /\
     (exists st st1 st0,
        scan bitflags_line init_state (pre1 ++ hdr1 :: mid) = Ok st /\
        In k (keys (out st)) /\
        bitflags_line st hdr2 = Ok st1 /\
        current_enum st1 = k /\
        lookup k (out st1) = Some [] /\
        keys (out st1) = keys (out st) /\
        scan bitflags_line (set_out st []) (hdr2 :: post) = Ok st0 /\
        lookup k d = lookup k (out st0)) /\
     (forall raws xs,
        k <> "" ->
        Forall2 (fun raw x => strip raw = ("FLAG(" ++ x ++ ")")%string)
                raws xs ->
        forallb flag_name_ok xs = true ->
        exists d',
          parse_bitflags (pre1 ++ hdr1 :: mid ++ hdr2 :: raws) = Ok d' /\
          lookup k d' = Some (map strip xs))).
Proof.
  split.
  - intros pre1 hdr1 mid hdr2 post k d K1 K2 Hd.
    destruct (declared_twice enum_line enum_start enum_decl_key
                enum_line_sim enum_decl_sim enum_line_wf enum_line_out
                (fun pre hdr k st Hp Hk =>
                   let '(conj a (conj b (conj _ c))) :=
                     enum_decl_key_spec pre hdr k st Hp Hk in
                   conj a (conj b c))
                pre1 hdr1 mid hdr2 post k d K1 K2 Hd)
      as (R1 & st & st1 & st0 & Hpre & R2 & E & Hce & Hl & R3 & R4 & R5).
    split; [assumption|]. split; [exists st, st1, st0; repeat split; assumption|].
    intros body Hbody.
    destruct (enum_decl_key_spec _ hdr2 k st Hpre K2) as (_ & _ & Hne & _).
    destruct (enumerator_lines_scan body st1 [] Hbody) as (st2 & E2 & Ho & _);
      [now rewrite Hce|now rewrite Hce|].
    exists (out st2). unfold parse_enum.
    replace (pre1 ++ hdr1 :: mid ++ hdr2 :: body)
      with ((pre1 ++ hdr1 :: mid) ++ hdr2 :: body)
      by (rewrite <- app_assoc; reflexivity).
    rewrite scan_app, Hpre. cbn [bind scan]. rewrite E. cbn [bind].
    rewrite E2. cbn [bind]. split; [reflexivity|].
    rewrite Ho, Hce. apply lookup_setitem_same.
  - intros pre1 hdr1 mid hdr2 post k d K1 K2 Hd.
    destruct (declared_twice bitflags_line bitflags_start bitflags_decl_key
                bitflags_line_sim bitflags_decl_sim bitflags_line_wf
                bitflags_line_out bitflags_decl_key_spec
                pre1 hdr1 mid hdr2 post k d K1 K2 Hd)
      as (R1 & st & st1 & st0 & Hpre & R2 & E & Hce & Hl & R3 & R4 & R5).
    split; [assumption|]. split; [exists st, st1, st0; repeat split; assumption|].
    intros raws xs Hne Hraws Hxs.
    destruct (flag_lines_scan raws xs Hraws st1 [] Hxs) as (st2 & E2 & Ho & _);
      [now rewrite Hce|now rewrite Hce|].
    exists (out st2). unfold parse_bitflags.
    replace (pre1 ++ hdr1 :: mid ++ hdr2 :: raws)
      with ((pre1 ++ hdr1 :: mid) ++ hdr2 :: raws)
      by (rewrite <- app_assoc; reflexivity).
    rewrite scan_app, Hpre. cbn [bind scan]. rewrite E. cbn [bind].
    rewrite E2. cbn [bind]. split; [reflexivity|].
    rewrite Ho, Hce. apply lookup_setitem_same.
Qed.

Lemma C6_redeclaration_witness :
  (parse_enum ([] ++ "enum A {" :: ["x"; "}"] ++ "enum A {" :: ["y"; "}"]) =
     Ok [("A", ["y"])] /\
   count_occ string_dec (keys [("A", ["y"])]) "A" = 1 /\
   exists d',
     parse_enum ([] ++ "enum A {" :: ["x"; "}"] ++ "enum A {" :: ["y"; "z"])
       = Ok d' /\
     lookup "A" d' = Some ["y"; "z"]) /\
  (parse_bitflags ([] ++ "BEGIN_BITFLAGS(M)" :: ["FLAG(a)"; "END_BITFLAGS"]
                   ++ "BEGIN_BITFLAGS(M)" :: ["FLAG(b)"; "END_BITFLAGS"]) =
     Ok [("M", ["b"])] /\
   count_occ string_dec (keys [("M", ["b"])]) "M" = 1 /\
   exists d',
     parse_bitflags ([] ++ "BEGIN_BITFLAGS(M)" :: ["FLAG(a)"; "END_BITFLAGS"]
                     ++ "BEGIN_BITFLAGS(M)" :: ["FLAG(b)"; "FLAG(c)"]) = Ok d' /\
     lookup "M" d' = Some ["b"; "c"]).
Proof.
  split.
  - split; [reflexivity|].
    destruct (proj1 C6_redeclaration [] "enum A {" ["x"; "}"] "enum A {"
                ["y"; "}"] "A" [("A", ["y"])] eq_refl eq_refl eq_refl)
      as (H1 & _ & H3).
    split; [exact H1|]. exact (H3 ["y"; "z"] eq_refl).
  - split; [reflexivity|].
    destruct (proj2 C6_redeclaration [] "BEGIN_BITFLAGS(M)"
                ["FLAG(a)"; "END_BITFLAGS"] "BEGIN_BITFLAGS(M)"
                ["FLAG(b)"; "END_BITFLAGS"] "M" [("M", ["b"])]
                eq_refl eq_refl eq_refl)
      as (H1 & _ & H3).
    split; [exact H1|].
    refine (H3 ["FLAG(b)"; "FLAG(c)"] ["b"; "c"] _ _ eq_refl).
    + discriminate.
    + repeat constructor.
Defined.

(** ** The emitter's output *)

Section Emitter.

Lemma append_nil_r (s : string) : (s ++ "")%string = s.
Proof. induction s as [|c s IH]; simpl; [reflexivity|now rewrite IH]. Qed.

Lemma getitem_key k d : In k (keys d) -> exists v, getitem k d = Ok v.
Proof.
  intros H. apply lookup_in_keys in H. unfold getitem.
  destruct (lookup k d) as [v|]; [eauto|now elim H].
Qed.

(** The value list that [enums[k]] yields. *)
Definition value_of (enums : dict) (k : string) : list string :=
  match lookup k enums with
  | Some v => v
  | None => []
  end.

(** The text printed for the keys [ks], one block and one line end per key. *)
Fixpoint blocks (enums : dict) (ks : list string) (is_bf : bool) : string :=
  match ks with
  | [] => ""
  | k :: ks' =>
      ((block k (value_of enums k) is_bf ++ LF) ++ blocks enums ks' is_bf)%string
  end.

Lemma emit_loop_blocks enums is_bf ks :
  incl ks (keys enums) ->
  forall stdout,
    emit_loop enums ks is_bf stdout =
      Ok (stdout ++ blocks enums ks is_bf)%string.
Proof.
  induction ks as [|k ks IH]; intros Hincl stdout; cbn [emit_loop blocks].
  - now rewrite append_nil_r.
  - destruct (getitem_key k enums) as [v Hv]; [apply Hincl; now left|].
    rewrite Hv; cbn [bind].
    rewrite IH by (intros x Hx; apply Hincl; now right).
    unfold print, value_of. unfold getitem in Hv.
    destruct (lookup k enums); [|discriminate]. injection Hv as ->.
    now rewrite !append_assoc.
Qed.

End Emitter.

(** C7: [create_enum] never faults and appends to the standard output a text
    that is a function of the mapping and of the kind flag alone: the blocks
    of the keys in the mapping's order. Two runs on the same mapping with the
    same flag therefore print the same text twice. *)
Theorem C7_emitter_deterministic enums is_bf stdout :
  let text := blocks enums (keys enums) is_bf in
  create_enum enums is_bf stdout = Ok (stdout ++ text)%string /\
  (stdout1 <- create_enum enums is_bf stdout ;;
   create_enum enums is_bf stdout1) = Ok ((stdout ++ text) ++ text)%string.
Proof.
  intros text.
  assert (H : forall s, create_enum enums is_bf s = Ok (s ++ text)%string)
    by (intros s; apply emit_loop_blocks, incl_refl).
  split; [apply H|]. rewrite H; cbn [bind]. apply H.
Qed.

(** ** Where flag names come from *)

Section FlagNames.

(** [name] is the non-empty trimmed argument of a scanned line of [lines]
    that holds [FLAG] and neither marker. *)
Definition flag_source (lines : list string) (name : string) : Prop :=
  name <> "" /\
  exists raw,
    In raw lines /\
    skipped (strip raw) = false /\
    contains "FLAG" (strip raw) = true /\
    contains "BEGIN_BITFLAGS" (strip raw) = false /\
    contains "END_BITFLAGS" (strip raw) = false /\
    paren_name (strip raw) = Ok name.

Definition names_from (lines : list string) (st : scan_state) : Prop :=
  forall k vs name, In (k, vs) (out st) -> In name vs -> flag_source lines name.

Lemma in_setitem k v k0 v0 d :
  In (k, v) (setitem k0 v0 d) -> v = v0 \/ In (k, v) d.
Proof.
  induction d as [|[k' v'] d IH]; simpl.
  - intros [H|[]]; injection H as _ <-; now left.
  - destruct (String.eqb k0 k'); simpl.
    + intros [H|H]; [injection H as _ <-; now left|right; now right].
    + intros [H|H]; [right; now left|].
      destruct (IH H); [now left|right; now right].
Qed.

Lemma lookup_in k d v : lookup k d = Some v -> exists k', In (k', v) d.
Proof.
  induction d as [|[k' v'] d IH]; simpl; [discriminate|].
  destruct (String.eqb k k').
  - intros H; injection H as ->. exists k'; now left.
  - intros H. destruct (IH H) as [k'' Hin]. exists k''; now right.
Qed.

Lemma bitflags_line_names lines st raw st' :
  In raw lines ->
  names_from lines st ->
  bitflags_line st raw = Ok st' ->
  names_from lines st'.
Proof.
  intros Hin Hnames. destruct (skipped (strip raw)) eqn:Hs.
  - rewrite (bitflags_line_skipped _ _ Hs). now intros H; injection H as <-.
  - rewrite (bitflags_line_scanned _ _ Hs), bitflags_body_spec.
    destruct (detect_class st (strip raw)) as [st1|] eqn:D; cbn [bind];
      [|discriminate].
    destruct (detect_class_fields _ _ _ D) as (Ho1 & _).
    pose proof (track_brace_out st1 (strip raw)) as Ho2.
    set (st2 := track_brace st1 (strip raw)) in *.
    assert (Hn2 : names_from lines st2)
      by (unfold names_from; rewrite Ho2, Ho1; exact Hnames).
    unfold bitflags_action.
    destruct (contains "BEGIN_BITFLAGS" (strip raw)) eqn:Hb.
    + destruct (paren_name _); cbn [bind]; [|discriminate].
      intros H; injection H as <-. intros k vs name Hk Hv. cbn in Hk.
      apply in_setitem in Hk as [-> | Hk]; [destruct Hv|].
      exact (Hn2 _ _ _ Hk Hv).
    + destruct (negb _); [|now intros H; injection H as <-].
      destruct (contains "END_BITFLAGS" (strip raw)) eqn:He;
        [now intros H; injection H as <-|].
      destruct (contains "FLAG" (strip raw)) eqn:Hf;
        [|now intros H; injection H as <-].
      destruct (paren_name (strip raw)) as [n|] eqn:Hp; cbn [bind];
        [|discriminate].
      destruct (0 <? String.length n)%nat eqn:Hlen;
        [|now intros H; injection H as <-].
      unfold append_item.
      destruct (lookup _ _) as [v|] eqn:Hl; cbn [bind]; [|discriminate].
      intros H; injection H as <-. intros k vs name Hk Hv. cbn in Hk.
      apply in_setitem in Hk as [-> | Hk]; [|exact (Hn2 _ _ _ Hk Hv)].
      apply in_app_or in Hv as [Hv|[<-|[]]].
      * destruct (lookup_in _ _ _ Hl) as [k' Hk']. exact (Hn2 _ _ _ Hk' Hv).
      * split; [now apply length_pos_iff|].
        exists raw. repeat split; assumption.
Qed.

Lemma bitflags_scan_names all lines : forall st st',
  incl lines all ->
  names_from all st ->
  scan bitflags_line st lines = Ok st' ->
  names_from all st'.
Proof.
  induction lines as [|l lines IH]; intros st st' Hincl Hn; cbn [scan].
  - now intros H; injection H as <-.
  - destruct (bitflags_line st l) as [st1|] eqn:E; cbn [bind]; [|discriminate].
    apply IH; [intros x Hx; apply Hincl; now right|].
    apply (bitflags_line_names all st l); [apply Hincl; now left|assumption..].
Qed.

Lemma track_brace_nobrace st line :
  contains "{" line = false -> contains "}" line = false ->
  track_brace st line = st.
Proof.
  intros H1 H2. unfold track_brace. rewrite H1, H2. now destruct (negb _).
Qed.

(** A line [FLAG()] leaves the state of the scan as it is. *)
Lemma empty_flag_line st raw :
  strip raw = "FLAG()" -> bitflags_line st raw = Ok st.
Proof.
  intros Hraw. rewrite bitflags_line_scanned by (now rewrite Hraw).
  rewrite Hraw, bitflags_body_spec.
  rewrite detect_class_quiet by (vm_compute; intuition discriminate).
  cbn [bind]. rewrite track_brace_nobrace by reflexivity.
  unfold bitflags_action.
  change (contains "BEGIN_BITFLAGS" "FLAG()") with false.
  change (contains "END_BITFLAGS" "FLAG()") with false.
  change (contains "FLAG" "FLAG()") with true.
  change (paren_name "FLAG()") with (@Ok string "").
  cbn. now destruct (negb _).
Qed.

End FlagNames.

(** C10: for every input on which the bitflag scanner returns a mapping,
    every name in every value list is the non-empty trimmed argument of a
    scanned line that holds [FLAG] and holds neither [BEGIN_BITFLAGS] nor
    [END_BITFLAGS]; a marker line adds no name to any list; and a line
    [FLAG()] is dropped: the scan returns what it returns without it. *)
Theorem C10_flag_names :
  (forall lines d k vs name,
     parse_bitflags lines = Ok d ->
     In (k, vs) d -> In name vs -> flag_source lines name)
  /\
  (forall st raw st',
     contains "BEGIN_BITFLAGS" (strip raw) = true \/
     contains "END_BITFLAGS" (strip raw) = true ->
     bitflags_line st raw = Ok st' ->
     forall k vs, In (k, vs) (out st') -> vs = [] \/ In (k, vs) (out st))
  /\
  (forall pre raw post,
     strip raw = "FLAG()" ->
     parse_bitflags (pre ++ raw :: post) = parse_bitflags (pre ++ post)).
Proof.
  split; [|split].
  - intros lines d k vs name. unfold parse_bitflags.
    destruct (scan bitflags_line init_state lines) as [st|] eqn:E;
      cbn [bind]; [|discriminate].
    intros H; injection H as <-.
    apply (bitflags_scan_names lines lines init_state st (incl_refl _));
      [|assumption].
    intros k' vs' name' [].
  - intros st raw st' Hmark. destruct (skipped (strip raw)) eqn:Hs.
    + rewrite (bitflags_line_skipped _ _ Hs). intros H; injection H as <-.
      now right.
    + rewrite (bitflags_line_scanned _ _ Hs), bitflags_body_spec.
      destruct (detect_class st (strip raw)) as [st1|] eqn:D; cbn [bind];
        [|discriminate].
      destruct (detect_class_fields _ _ _ D) as (Ho1 & _).
      pose proof (track_brace_out st1 (strip raw)) as Ho2.
      set (st2 := track_brace st1 (strip raw)) in *.
      unfold bitflags_action.
      destruct (contains "BEGIN_BITFLAGS" (strip raw)).
      * destruct (paren_name _); cbn [bind]; [|discriminate].
        intros H; injection H as <-. intros k vs Hk. cbn in Hk.
        apply in_setitem in Hk as [-> | Hk]; [now left|right; congruence].
      * destruct Hmark as [Hm|Hm]; [discriminate|]. rewrite Hm.
        destruct (negb _); intros H; injection H as <-; intros k vs Hk;
          right; cbn in Hk; congruence.
  - intros pre raw post Hraw. unfold parse_bitflags.
    rewrite !scan_app.
    destruct (scan bitflags_line init_state pre) as [st|]; cbn [bind scan];
      [|reflexivity].
    now rewrite (empty_flag_line st raw Hraw).
Qed.

Lemma C10_flag_names_witness :
  flag_source ["BEGIN_BITFLAGS(Mask)"; "FLAG(A)"; "FLAG()"; "END_BITFLAGS"] "A".
Proof.
  apply (proj1 C10_flag_names
           ["BEGIN_BITFLAGS(Mask)"; "FLAG(A)"; "FLAG()"; "END_BITFLAGS"]
           [("Mask", ["A"])] "Mask" ["A"] "A").
  - reflexivity.
  - left; reflexivity.
  - left; reflexivity.
Defined.

(** ** Faults *)

Section Faults.

Lemma item_error toks i e : item toks i = Raise e -> e = IndexError.
Proof.
  unfold item. destruct (nth_error toks i); [discriminate|].
  now intros H; injection H as <-.
Qed.

Lemma class_of_error toks e :
  class_of toks = Some (Raise e) -> e = IndexError.
Proof.
  induction toks as [|t ts IH]; cbn [class_of]; [discriminate|].
  destruct (String.eqb t "class"); [|exact IH].
  intros H; injection H as H.
  destruct (item ts 0) as [t1|e1] eqn:E0; cbn [bind] in H.
  - destruct (negb _); [discriminate|]. exact (item_error _ _ _ H).
  - injection H as <-. exact (item_error _ _ _ E0).
Qed.

(** Enclosing-type detection can only fault with an index out of range. *)
Lemma detect_class_error st line e :
  detect_class st line = Raise e -> e = IndexError.
Proof.
  rewrite detect_class_spec. destruct (_ && _ && _); [|discriminate].
  destruct (class_of (split line)) as [[cc|e1]|] eqn:E; cbn [bind];
    try discriminate.
  intros H; injection H as <-. exact (class_of_error _ _ E).
Qed.

Lemma paren_name_raises line :
  contains "(" line = false \/ contains ")" line = false ->
  paren_name line = Raise ValueError.
Proof.
  unfold paren_name. intros [H|H].
  - now rewrite (index_raises _ _ H).
  - rewrite (index_raises ")" _ H). unfold index.
    now destruct (find "(" line).
Qed.

(** A first token [class] with nothing after it. *)
Lemma class_of_final before :
  ~ In "class" before -> class_of (before ++ ["class"]) = Some (Raise IndexError).
Proof. intros H. rewrite (class_of_app _ _ H). reflexivity. Qed.

Lemma detect_class_final st line before :
  current_class st = "" ->
  contains "enum" line = false ->
  split line = before ++ ["class"] ->
  ~ In "class" before ->
  detect_class st line = Raise IndexError.
Proof.
  intros Hidle He Hsplit Hb.
  rewrite detect_class_spec, He, Hidle.
  rewrite (split_token_contains line "class")
    by (rewrite Hsplit; apply in_or_app; right; now left).
  cbn [negb andb]. change (String.eqb "" "") with true. cbv iota.
  now rewrite Hsplit, (class_of_final _ Hb).
Qed.

(** A fault on one line is the result of the whole scan. *)
Lemma scan_raises step pre raw post st e :
  scan step init_state pre = Ok st ->
  step st raw = Raise e ->
  scan step init_state (pre ++ raw :: post) = Raise e.
Proof.
  intros Hpre Hraw. rewrite scan_app, Hpre. cbn [bind scan]. now rewrite Hraw.
Qed.

End Faults.

(** C8, as stated, fails for the token [class]: the scanners look for it only
    while no enclosing type is active and only on a line without the
    substring [enum]. Inside the body of [Outer] the line [friend class]
    ends with the token [class] and the scan returns a mapping; so does the
    scan of the line [enum class]. *)
Lemma C8_counterexample :
  split "friend class" = ["friend"; "class"] /\
  parse_bitflags ["class Outer {"; "friend class"] = Ok [] /\
  split "enum class" = ["enum"; "class"] /\
  parse_bitflags ["enum class"] = Ok [].
Proof. repeat split; reflexivity. Qed.

(** C8 (amended): let the lines before have been scanned without a fault, and
    let the next line be scanned (non-blank, without [using]). The bitflag
    scan faults with an index out of range or a failed substring search, and
    returns no mapping, when
    - the line holds [BEGIN_BITFLAGS] and lacks [(] or [)]; or
    - a bitflag set is active, the line holds [FLAG] and not [END_BITFLAGS],
      and lacks [(] or [)]; or
    - no enclosing type is active, the line does not hold the substring
      [enum], and its first token [class] is its last token.
    In the last case the enum scan faults in the same way. *)
Theorem C8_faults :
  (forall pre raw post st,
     scan bitflags_line init_state pre = Ok st ->
     skipped (strip raw) = false ->
     (contains "BEGIN_BITFLAGS" (strip raw) = true /\
      (contains "(" (strip raw) = false \/ contains ")" (strip raw) = false))
     \/
     (current_enum st <> "" /\
      contains "FLAG" (strip raw) = true /\
      contains "END_BITFLAGS" (strip raw) = false /\
      (contains "(" (strip raw) = false \/ contains ")" (strip raw) = false))
     \/
     (current_class st = "" /\
      contains "enum" (strip raw) = false /\
      exists before,
        split (strip raw) = before ++ ["class"] /\ ~ In "class" before) ->
     exists e,
       (e = IndexError \/ e = ValueError) /\
       bitflags_line st raw = Raise e /\
       parse_bitflags (pre ++ raw :: post) = Raise e)
  /\
  (forall pre raw post st before,
     scan enum_line init_state pre = Ok st ->
     skipped (strip raw) = false ->
     current_class st = "" ->
     contains "enum" (strip raw) = false ->
     split (strip raw) = before ++ ["class"] ->
     ~ In "class" before ->
     enum_line st raw = Raise IndexError /\
     parse_enum (pre ++ raw :: post) = Raise IndexError).
Proof.
  split.
  - intros pre raw post st Hpre Hs Hcases.
    assert (Hfault : exists e, (e = IndexError \/ e = ValueError) /\
                               bitflags_line st raw = Raise e).
    { rewrite (bitflags_line_scanned _ _ Hs), bitflags_body_spec.
      destruct (detect_class st (strip raw)) as [st1|e] eqn:D; cbn [bind].
      2:{ exists e. split; [left; exact (detect_class_error _ _ _ D)|reflexivity]. }
      exists ValueError. split; [now right|].
      destruct (detect_class_fields _ _ _ D) as (_ & He1 & _).
      pose proof (track_brace_enum st1 (strip raw)) as He2.
      set (st2 := track_brace st1 (strip raw)) in *.
      unfold bitflags_action.
      destruct Hcases as [(Hb & Hp) | [(Hopen & Hf & Hend & Hp) | Hclass]].
      - rewrite Hb. now rewrite (paren_name_raises _ Hp).
      - rewrite (paren_name_raises _ Hp).
        destruct (contains "BEGIN_BITFLAGS" (strip raw)); [reflexivity|].
        rewrite He2, He1. apply String.eqb_neq in Hopen. rewrite Hopen.
        cbn [negb]. now rewrite Hend, Hf.
      - destruct Hclass as (Hidle & He & before & Hsplit & Hb).
        rewrite (detect_class_final _ _ _ Hidle He Hsplit Hb) in D.
        discriminate. }
    destruct Hfault as (e & He & Hraw). exists e. split; [assumption|].
    split; [assumption|]. unfold parse_bitflags.
    now rewrite (scan_raises bitflags_line pre raw post st e Hpre Hraw).
  - intros pre raw post st before Hpre Hs Hidle He Hsplit Hb.
    assert (Hraw : enum_line st raw = Raise IndexError).
    { rewrite (enum_line_scanned _ _ Hs), enum_body_spec.
      now rewrite (detect_class_final _ _ _ Hidle He Hsplit Hb). }
    split; [assumption|]. unfold parse_enum.
    now rewrite (scan_raises enum_line pre raw post st _ Hpre Hraw).
Qed.

Lemma C8_faults_witness :
  exists e,
    (e = IndexError \/ e = ValueError) /\
    bitflags_line {| out := [("A", [])]; current_enum := "A";
                     current_class := ""; brace := 0 |} "FLAG x" = Raise e /\
    parse_bitflags (["BEGIN_BITFLAGS(A)"] ++ "FLAG x" :: ["END_BITFLAGS"]) =
      Raise e.
Proof.
  apply (proj1 C8_faults ["BEGIN_BITFLAGS(A)"] "FLAG x" ["END_BITFLAGS"]
           {| out := [("A", [])]; current_enum := "A"; current_class := "";
              brace := 0 |}).
  - reflexivity.
  - reflexivity.
  - right; left. repeat split; try reflexivity; try discriminate.
    left; reflexivity.
Defined.

(** ** A declaration that starts inside another one *)

Section Nested.

(** A line changes the mapping, if at all, at the key of the declaration
    that is open after the line. *)
Lemma enum_line_out_key st raw st' :
  enum_line st raw = Ok st' ->
  out st' = out st \/ exists v, out st' = setitem (current_enum st') v (out st).
Proof.
  destruct (skipped (strip raw)) eqn:E.
  - rewrite (enum_line_skipped _ _ E). intros H; injection H as <-. now left.
  - rewrite (enum_line_scanned _ _ E), enum_body_spec.
    destruct (detect_class st (strip raw)) as [st1|] eqn:D; cbn [bind];
      [|discriminate].
    destruct (detect_class_fields _ _ _ D) as (Ho1 & _).
    pose proof (track_brace_out st1 (strip raw)) as Ho2.
    set (st2 := track_brace st1 (strip raw)) in *.
    unfold enum_action.
    destruct (contains "enum" (strip raw)).
    + destruct (List.find _ _); intros H; injection H as <-; cbn.
      * right. eexists. now rewrite Ho2, Ho1.
      * left; congruence.
    + destruct (contains "}" (strip raw));
        [intros H; injection H as <-; left; cbn; congruence|].
      destruct (negb _); [|intros H; injection H as <-; left; congruence].
      destruct (split (strip raw));
        [intros H; injection H as <-; left; congruence|].
      unfold append_item. destruct (lookup _ _); cbn [bind]; [|discriminate].
      intros H; injection H as <-; cbn. right. eexists.
      now rewrite Ho2, Ho1.
Qed.

Lemma bitflags_line_out_key st raw st' :
  bitflags_line st raw = Ok st' ->
  out st' = out st \/ exists v, out st' = setitem (current_enum st') v (out st).
Proof.
  destruct (skipped (strip raw)) eqn:E.
  - rewrite (bitflags_line_skipped _ _ E). intros H; injection H as <-.
    now left.
  - rewrite (bitflags_line_scanned _ _ E), bitflags_body_spec.
    destruct (detect_class st (strip raw)) as [st1|] eqn:D; cbn [bind];
      [|discriminate].
    destruct (detect_class_fields _ _ _ D) as (Ho1 & _).
    pose proof (track_brace_out st1 (strip raw)) as Ho2.
    set (st2 := track_brace st1 (strip raw)) in *.
    unfold bitflags_action.
    destruct (contains "BEGIN_BITFLAGS" (strip raw)).
    + destruct (paren_name _); cbn [bind]; [|discriminate].
      intros H; injection H as <-; cbn. right. eexists.
      now rewrite Ho2, Ho1.
    + destruct (negb _); [|intros H; injection H as <-; left; congruence].
      destruct (contains "END_BITFLAGS" (strip raw));
        [intros H; injection H as <-; left; cbn; congruence|].
      destruct (contains "FLAG" (strip raw));
        [|intros H; injection H as <-; left; congruence].
      destruct (paren_name _) as [n|]; cbn [bind]; [|discriminate].
      destruct (0 <? String.length n)%nat;
        [|intros H; injection H as <-; left; congruence].
      unfold append_item. destruct (lookup _ _); cbn [bind]; [|discriminate].
      intros H; injection H as <-; cbn. right. eexists.
      now rewrite Ho2, Ho1.
Qed.

(** The entry of [k] does not change while [k] is not the open declaration. *)
Lemma scan_frozen step k :
  (forall st raw st', step st raw = Ok st' ->
     out st' = out st \/
     exists v, out st' = setitem (current_enum st') v (out st)) ->
  forall lines st st',
    scan step st lines = Ok st' ->
    (forall p1 p2 s, lines = p1 ++ p2 -> scan step st p1 = Ok s ->
                     current_enum s <> k) ->
    lookup k (out st') = lookup k (out st).
Proof.
  intros Hstep. induction lines as [|l lines IH]; intros st st'; cbn [scan].
  - now intros H _; injection H as <-.
  - destruct (step st l) as [s1|] eqn:E; cbn [bind]; [|discriminate].
    intros Hscan Hopen.
    assert (H1 : current_enum s1 <> k).
    { apply (Hopen [l] lines); [reflexivity|]. cbn [scan]. now rewrite E. }
    rewrite (IH s1 st' Hscan).
    + destruct (Hstep _ _ _ E) as [-> | (v & ->)]; [reflexivity|].
      apply lookup_setitem_other. congruence.
    + intros p1 p2 s -> Hp1. apply (Hopen (l :: p1) p2); [reflexivity|].
      cbn [scan]. now rewrite E.
Qed.

End Nested.

(** C9, as stated, fails. A second header for the enum that is open empties
    the entry: the earlier entry does not keep its names. In the bitflag
    scanner a line [BEGIN_BITFLAGS] without parentheses, met while a set is
    open, raises a fault. In the enum scanner the line [enum {], met while an
    enum is open, declares nothing: the names after it still go to the enum
    before. *)
Lemma C9_counterexample :
  parse_enum ["enum A {"; "x"; "enum A {"; "y"] = Ok [("A", ["y"])] /\
  parse_bitflags ["BEGIN_BITFLAGS(A)"; "FLAG(x)"; "BEGIN_BITFLAGS"] =
    Raise ValueError /\
  parse_enum ["enum A {"; "x"; "enum {"; "y"] = Ok [("A", ["x"; "y"])].
Proof. repeat split; reflexivity. Qed.

(** C9 (amended): let a declaration be open, and let a scanned line start a
    declaration under another key: in the enum scanner a line holding [enum]
    with a name token; in the bitflag scanner a line holding
    [BEGIN_BITFLAGS] on which neither the enclosing-type detection nor the
    extraction of the parenthesised name faults, and whose key is not empty.
    Then no error is signaled; the new entry is opened with an empty list and
    the earlier entry is untouched; the names of the enumerator lines (flag
    lines) that follow accrue to the new entry, in order; and the earlier
    entry keeps exactly its names for as long as its key is not the open
    declaration again. *)
Theorem C9_nested_start :
  (forall st hdr t,
     current_enum st <> "" ->
     skipped (strip hdr) = false ->
     contains "enum" (strip hdr) = true ->
     List.find is_name_token (split (strip hdr)) = Some t ->
     let k0 := current_enum st in
     let k1 := qualified (current_class (track_brace st (strip hdr))) t in
     k1 <> k0 ->
     exists st1,
       enum_line st hdr = Ok st1 /\
       current_enum st1 = k1 /\
       lookup k1 (out st1) = Some [] /\
       lookup k0 (out st1) = lookup k0 (out st) /\
       (forall body,
          forallb enumerator_line body = true ->
          exists st2,
            scan enum_line st1 body = Ok st2 /\
            lookup k1 (out st2) =
              Some (map (fun raw => first_token (strip raw)) body) /\
            lookup k0 (out st2) = lookup k0 (out st)) /\
       (forall post st2,
          scan enum_line st1 post = Ok st2 ->
          (forall p1 p2 s, post = p1 ++ p2 -> scan enum_line st1 p1 = Ok s ->
                           current_enum s <> k0) ->
          lookup k0 (out st2) = lookup k0 (out st)))
  /\
  (forall st hdr st' n,
     current_enum st <> "" ->
     skipped (strip hdr) = false ->
     contains "BEGIN_BITFLAGS" (strip hdr) = true ->
     detect_class st (strip hdr) = Ok st' ->
     paren_name (strip hdr) = Ok n ->
     let k0 := current_enum st in
     let k1 := qualified (current_class (track_brace st' (strip hdr))) n in
     k1 <> k0 ->
     k1 <> "" ->
     exists st1,
       bitflags_line st hdr = Ok st1 /\
       current_enum st1 = k1 /\
       lookup k1 (out st1) = Some [] /\
       lookup k0 (out st1) = lookup k0 (out st) /\
       (forall raws xs,
          Forall2 (fun raw x => strip raw = ("FLAG(" ++ x ++ ")")%string)
                  raws xs ->
          forallb flag_name_ok xs = true ->
          exists st2,
            scan bitflags_line st1 raws = Ok st2 /\
            lookup k1 (out st2) = Some (map strip xs) /\
            lookup k0 (out st2) = lookup k0 (out st)) /\
       (forall post st2,
          scan bitflags_line st1 post = Ok st2 ->
          (forall p1 p2 s, post = p1 ++ p2 ->
                           scan bitflags_line st1 p1 = Ok s ->
                           current_enum s <> k0) ->
          lookup k0 (out st2) = lookup k0 (out st))).
Proof.
  split.
  - intros st hdr t Hopen Hs He Hname k0 k1 Hk.
    assert (Hk1 : k1 <> "")
      by (apply qualified_nonempty; exact (find_name_token_nonempty _ _ Hname)).
    exists (declare (track_brace st (strip hdr)) k1).
    assert (Hstep : enum_line st hdr = Ok (declare (track_brace st (strip hdr)) k1)).
    { rewrite (enum_line_scanned _ _ Hs), enum_body_spec.
      rewrite (detect_class_enum _ _ He); cbn [bind].
      unfold enum_action. now rewrite He, Hname. }
    assert (H0 : lookup k0 (out (declare (track_brace st (strip hdr)) k1)) =
                 lookup k0 (out st)).
    { cbn [out declare]. rewrite lookup_setitem_other by congruence.
      now rewrite track_brace_out. }
    split; [assumption|]. split; [reflexivity|].
    split; [cbn; apply lookup_setitem_same|]. split; [assumption|]. split.
    + intros body Hbody.
      destruct (enumerator_lines_scan body
                  (declare (track_brace st (strip hdr)) k1) [] Hbody)
        as (st2 & H2 & Ho & Hce); [exact Hk1|cbn; apply lookup_setitem_same|].
      exists st2. split; [assumption|]. rewrite Ho.
      cbn [current_enum declare app].
      split; [apply lookup_setitem_same|].
      rewrite lookup_setitem_other by congruence. exact H0.
    + intros post st2 Hpost Hfrozen. rewrite <- H0.
      exact (scan_frozen enum_line k0 enum_line_out_key post _ _ Hpost Hfrozen).
  - intros st hdr st' n Hopen Hs Hb Hd Hp k0 k1 Hk Hk1.
    destruct (detect_class_fields _ _ _ Hd) as (Ho' & He' & _).
    exists (declare (track_brace st' (strip hdr)) k1).
    assert (Hstep : bitflags_line st hdr =
                    Ok (declare (track_brace st' (strip hdr)) k1)).
    { rewrite (bitflags_line_scanned _ _ Hs), bitflags_body_spec, Hd.
      cbn [bind]. unfold bitflags_action. now rewrite Hb, Hp. }
    assert (H0 : lookup k0 (out (declare (track_brace st' (strip hdr)) k1)) =
                 lookup k0 (out st)).
    { cbn [out declare]. rewrite lookup_setitem_other by congruence.
      now rewrite track_brace_out, Ho'. }
    split; [assumption|]. split; [reflexivity|].
    split; [cbn; apply lookup_setitem_same|]. split; [assumption|]. split.
    + intros raws xs Hraws Hxs.
      destruct (flag_lines_scan raws xs Hraws
                  (declare (track_brace st' (strip hdr)) k1) [] Hxs)
        as (st2 & H2 & Ho & Hce); [exact Hk1|cbn; apply lookup_setitem_same|].
      exists st2. split; [assumption|]. rewrite Ho.
      cbn [current_enum declare app].
      split; [apply lookup_setitem_same|].
      rewrite lookup_setitem_other by congruence. exact H0.
    + intros post st2 Hpost Hfrozen. rewrite <- H0.
      exact (scan_frozen bitflags_line k0 bitflags_line_out_key post _ _
               Hpost Hfrozen).
Qed.

Lemma C9_nested_start_witness :
  exists st1,
    enum_line {| out := [("A", ["x"])]; current_enum := "A";
                 current_class := ""; brace := 0 |} "enum B {" = Ok st1 /\
    current_enum st1 = "B" /\
    lookup "B" (out st1) = Some [] /\
    lookup "A" (out st1) = Some ["x"] /\
    (forall body,
       forallb enumerator_line body = true ->
       exists st2,
         scan enum_line st1 body = Ok st2 /\
         lookup "B" (out st2) =
           Some (map (fun raw => first_token (strip raw)) body) /\
         lookup "A" (out st2) = Some ["x"]) /\
    (forall post st2,
       scan enum_line st1 post = Ok st2 ->
       (forall p1 p2 s, post = p1 ++ p2 -> scan enum_line st1 p1 = Ok s ->
                        current_enum s <> "A") ->
       lookup "A" (out st2) = Some ["x"]).
Proof.
  apply (proj1 C9_nested_start
           {| out := [("A", ["x"])]; current_enum := "A";
              current_class := ""; brace := 0 |} "enum B {" "B").
  - discriminate.
  - reflexivity.
  - reflexivity.
  - reflexivity.
  - discriminate.
Defined.

(** * Further properties of the scanners and of the emitter *)

(** ** Which faults a scan can raise *)

Section FaultKinds.

(** Where a scan faults: at its first line that faults. *)
Lemma scan_raise_inv step : forall lines st e,
  scan step st lines = Raise e ->
  exists pre raw post s,
    lines = pre ++ raw :: post /\
    scan step st pre = Ok s /\ step s raw = Raise e.
Proof.
  induction lines as [|l lines IH]; intros st e; cbn [scan]; [discriminate|].
  destruct (step st l) as [s1|e1] eqn:E; cbn [bind].
  - intros H. destruct (IH _ _ H) as (pre & raw & post & s & -> & Hp & Hr).
    exists (l :: pre), raw, post, s. split; [reflexivity|].
    split; [cbn [scan]; now rewrite E|assumption].
  - intros H; injection H as <-. exists [], l, lines, st. now repeat split.
Qed.

(** In a well-formed state a line of the enum scanner can only fault in the
    enclosing-type detection. *)
Lemma enum_line_raise st raw e :
  wf st -> enum_line st raw = Raise e ->
  skipped (strip raw) = false /\ detect_class st (strip raw) = Raise e.
Proof.
  intros Hwf. destruct (skipped (strip raw)) eqn:Hs.
  - now rewrite (enum_line_skipped _ _ Hs).
  - rewrite (enum_line_scanned _ _ Hs), enum_body_spec.
    destruct (detect_class st (strip raw)) as [st1|e1] eqn:D; cbn [bind].
    + destruct (enum_action_total (track_brace st1 (strip raw)) (strip raw))
        as [st' ->]; [|discriminate].
      apply wf_track_brace. exact (wf_detect_class _ _ _ D Hwf).
    + intros H; injection H as <-. now split.
Qed.

Lemma paren_name_error line e : paren_name line = Raise e -> e = ValueError.
Proof.
  unfold paren_name, index.
  destruct (find "(" line); cbn [bind];
    [destruct (find ")" line); cbn [bind]|]; intros H;
    try discriminate; now injection H as <-.
Qed.

(** In a well-formed state the bitflag scanner's own action can only fault in
    a substring search. *)
Lemma bitflags_action_error st2 line e :
  wf st2 -> bitflags_action st2 line = Raise e -> e = ValueError.
Proof.
  intros Hwf. unfold bitflags_action.
  destruct (contains "BEGIN_BITFLAGS" line).
  - destruct (paren_name line) as [n|e1] eqn:P; cbn [bind]; [discriminate|].
    intros H; injection H as <-. exact (paren_name_error _ _ P).
  - destruct (negb _) eqn:E; [|discriminate].
    destruct (contains "END_BITFLAGS" line); [discriminate|].
    destruct (contains "FLAG" line); [|discriminate].
    destruct (paren_name line) as [n|e1] eqn:P; cbn [bind].
    + destruct (0 <? String.length n)%nat; [|discriminate].
      apply negb_true_iff, String.eqb_neq in E.
      destruct (wf_lookup _ Hwf E) as [v Hv].
      now rewrite (append_item_ok _ _ _ _ Hv).
    + intros H; injection H as <-. exact (paren_name_error _ _ P).
Qed.

Lemma bitflags_line_error st raw e :
  wf st -> bitflags_line st raw = Raise e -> e = IndexError \/ e = ValueError.
Proof.
  intros Hwf. destruct (skipped (strip raw)) eqn:Hs.
  - now rewrite (bitflags_line_skipped _ _ Hs).
  - rewrite (bitflags_line_scanned _ _ Hs), bitflags_body_spec.
    destruct (detect_class st (strip raw)) as [st1|e1] eqn:D; cbn [bind].
    + intros H. right. apply (bitflags_action_error _ _ _ (wf_track_brace
        _ _ (wf_detect_class _ _ _ D Hwf)) H).
    + intros H; injection H as <-. left. exact (detect_class_error _ _ _ D).
Qed.

(** A line without a token [class] passes the enum scanner. *)
Lemma enum_line_total st raw :
  wf st ->
  skipped (strip raw) || negb (has_token "class" (strip raw)) = true ->
  exists st', enum_line st raw = Ok st'.
Proof.
  intros Hwf H. destruct (skipped (strip raw)) eqn:Hs.
  - rewrite (enum_line_skipped _ _ Hs); eauto.
  - cbn [orb] in H. apply negb_true_iff in H.
    rewrite (enum_line_scanned _ _ Hs), enum_body_spec.
    rewrite (detect_class_quiet _ _ (has_token_false _ _ H)); cbn [bind].
    apply enum_action_total. now apply wf_track_brace.
Qed.

(** A line that the bitflag scanner can read: it is skipped, or it has no
    token [class] and, when it holds [BEGIN_BITFLAGS], or [FLAG] without
    [END_BITFLAGS], it holds both parentheses. *)
Definition bitflags_readable (raw : string) : bool :=
  let line := strip raw in
  skipped line ||
  (negb (has_token "class" line) &&
   ((contains "(" line && contains ")" line) ||
    negb (contains "BEGIN_BITFLAGS" line
          || (contains "FLAG" line && negb (contains "END_BITFLAGS" line))))).

Lemma paren_name_ok line :
  contains "(" line = true -> contains ")" line = true ->
  exists n, paren_name line = Ok n.
Proof.
  intros H1 H2. unfold paren_name.
  destruct (index_ok _ _ H1) as [p ->], (index_ok _ _ H2) as [p2 ->].
  cbn [bind]; eauto.
Qed.

Lemma bitflags_line_total st raw :
  wf st -> bitflags_readable raw = true ->
  exists st', bitflags_line st raw = Ok st'.
Proof.
  intros Hwf H. unfold bitflags_readable in H.
  destruct (skipped (strip raw)) eqn:Hs.
  - rewrite (bitflags_line_skipped _ _ Hs); eauto.
  - cbn [orb] in H. apply andb_prop in H as [Hc Hp].
    apply negb_true_iff in Hc.
    rewrite (bitflags_line_scanned _ _ Hs), bitflags_body_spec.
    rewrite (detect_class_quiet _ _ (has_token_false _ _ Hc)); cbn [bind].
    pose proof (wf_track_brace st (strip raw) Hwf) as Hwf2.
    set (st2 := track_brace st (strip raw)) in *.
    unfold bitflags_action.
    apply orb_prop in Hp as [Hp|Hp].
    + apply andb_prop in Hp as [H1 H2].
      destruct (paren_name_ok _ H1 H2) as [n ->]. cbn [bind].
      destruct (contains "BEGIN_BITFLAGS" (strip raw)); [eauto|].
      destruct (negb _) eqn:E; [|eauto].
      destruct (contains "END_BITFLAGS" (strip raw)); [eauto|].
      destruct (contains "FLAG" (strip raw)); [|eauto].
      destruct (0 <? String.length n)%nat; [|eauto].
      apply negb_true_iff, String.eqb_neq in E.
      destruct (wf_lookup _ Hwf2 E) as [v Hv].
      rewrite (append_item_ok _ _ _ _ Hv); cbn [bind]; eauto.
    + apply negb_true_iff, orb_false_elim in Hp as [-> Hf].
      destruct (negb (String.eqb (current_enum st2) "")); [|eauto].
      destruct (contains "END_BITFLAGS" (strip raw)); [eauto|].
      cbn [negb] in Hf. rewrite andb_true_r in Hf. rewrite Hf. eauto.
Qed.

Lemma scan_total step (ok : string -> bool) :
  (forall st raw st', wf st -> step st raw = Ok st' -> wf st') ->
  (forall st raw, wf st -> ok raw = true -> exists st', step st raw = Ok st') ->
  forall lines st,
    wf st -> forallb ok lines = true ->
    exists st', scan step st lines = Ok st'.
Proof.
  intros Hwf Htot. induction lines as [|l lines IH]; intros st Hst Hall.
  - exists st; reflexivity.
  - cbn [forallb] in Hall. apply andb_prop in Hall as [Hl Hall].
    destruct (Htot st l Hst Hl) as [s1 E]. cbn [scan]. rewrite E; cbn [bind].
    apply IH; [exact (Hwf _ _ _ Hst E)|assumption].
Qed.

End FaultKinds.

(** X1: whatever the lines, the enum scanner returns a mapping or faults with
    an index out of range. It never faults on a missing key: the enum that
    [out[current_enum].append] writes to is always in the mapping. *)
Theorem X1_parse_enum_faults lines :
  (exists d, parse_enum lines = Ok d) \/ parse_enum lines = Raise IndexError.
Proof.
  unfold parse_enum.
  destruct (scan enum_line init_state lines) as [st|e] eqn:E; cbn [bind].
  - left; eauto.
  - right. destruct (scan_raise_inv _ _ _ _ E) as (pre & raw & post & s & _ & Hp & Hr).
    apply enum_line_raise in Hr as [_ Hd];
      [|exact (scan_enum_wf _ _ _ wf_init Hp)].
    now rewrite (detect_class_error _ _ _ Hd).
Qed.

(** X2: whatever the lines, the bitflag scanner returns a mapping or faults
    with an index out of range or a failed substring search; it never faults
    on a missing key. *)
Theorem X2_parse_bitflags_faults lines :
  (exists d, parse_bitflags lines = Ok d) \/
  parse_bitflags lines = Raise IndexError \/
  parse_bitflags lines = Raise ValueError.
Proof.
  unfold parse_bitflags.
  destruct (scan bitflags_line init_state lines) as [st|e] eqn:E; cbn [bind].
  - left; eauto.
  - right. destruct (scan_raise_inv _ _ _ _ E) as (pre & raw & post & s & _ & Hp & Hr).
    apply bitflags_line_error in Hr as [-> | ->];
      [now left|now right|exact (scan_bitflags_wf _ _ _ wf_init Hp)].
Qed.

(** X3: the enum scanner returns a mapping for every input none of whose
    scanned lines has a whitespace-separated token [class]. *)
Theorem X3_parse_enum_total lines :
  forallb (fun raw => skipped (strip raw)
                      || negb (has_token "class" (strip raw))) lines = true ->
  exists d, parse_enum lines = Ok d.
Proof.
  intros H. unfold parse_enum.
  destruct (scan_total enum_line _ enum_line_wf enum_line_total lines
              init_state wf_init H) as [st ->].
  cbn [bind]; eauto.
Qed.

Lemma X3_parse_enum_total_witness :
  exists d, parse_enum ["enum Mode {"; "  Solid,"; "  // using a class"; "};"]
            = Ok d.
Proof.
  apply (X3_parse_enum_total
           ["enum Mode {"; "  Solid,"; "  // using a class"; "};"]).
  reflexivity.
Defined.

(** X4: the bitflag scanner returns a mapping for every input in which each
    scanned line has no token [class] and, if it holds [BEGIN_BITFLAGS], or
    holds [FLAG] and not [END_BITFLAGS], holds both [(] and [)]. *)
Theorem X4_parse_bitflags_total lines :
  forallb bitflags_readable lines = true ->
  exists d, parse_bitflags lines = Ok d.
Proof.
  intros H. unfold parse_bitflags.
  destruct (scan_total bitflags_line _ bitflags_line_wf bitflags_line_total
              lines init_state wf_init H) as [st ->].
  cbn [bind]; eauto.
Qed.

Lemma X4_parse_bitflags_total_witness :
  exists d, parse_bitflags ["BEGIN_BITFLAGS(Mask)"; "FLAG(A)"; "int x;";
                            "END_BITFLAGS"] = Ok d.
Proof.
  apply (X4_parse_bitflags_total
           ["BEGIN_BITFLAGS(Mask)"; "FLAG(A)"; "int x;"; "END_BITFLAGS"]).
  reflexivity.
Defined.

(** ** Where keys and enumerator names come from *)

Section Provenance.

Lemma scan_invariant_in (step : scan_state -> string -> result scan_state)
  (all : list string) (P : scan_state -> Prop) :
  (forall st raw st', In raw all -> P st -> step st raw = Ok st' -> P st') ->
  forall lines st st',
    incl lines all -> P st -> scan step st lines = Ok st' -> P st'.
Proof.
  intros Hstep. induction lines as [|l lines IH]; intros st st' Hincl HP;
    cbn [scan].
  - now intros H; injection H as <-.
  - destruct (step st l) as [s1|] eqn:E; cbn [bind]; [|discriminate].
    apply IH; [intros x Hx; apply Hincl; now right|].
    apply (Hstep st l); [apply Hincl; now left|assumption..].
Qed.

Lemma keys_setitem_inv k k0 v d :
  In k (keys (setitem k0 v d)) -> k = k0 \/ In k (keys d).
Proof.
  destruct (in_dec string_dec k0 (keys d)) as [Hin|Hout].
  - rewrite keys_setitem_in by assumption. now right.
  - rewrite keys_setitem_new by assumption. intros H.
    apply in_app_or in H as [H|[<-|[]]]; [now right|now left].
Qed.

(** [name] is the first token of a scanned line of [lines] that holds neither
    [enum] nor a closing brace. *)
Definition enum_value_source (lines : list string) (name : string) : Prop :=
  is_token name /\
  exists raw,
    In raw lines /\
    skipped (strip raw) = false /\
    contains "enum" (strip raw) = false /\
    contains "}" (strip raw) = false /\
    first_token (strip raw) = name.

(** [cls] is an enclosing-type name taken from the lines [seen]: the token
    after the first token [class], or the one after [SDLPP_EXPORT], of a
    scanned line that does not hold [enum]. *)
Definition class_source (seen : list string) (cls : string) : Prop :=
  exists raw,
    In raw seen /\
    skipped (strip raw) = false /\
    contains "enum" (strip raw) = false /\
    class_of (split (strip raw)) = Some (Ok cls).


(** [k] is the parenthesised name [n] of a scanned line of [lines] that holds
    [BEGIN_BITFLAGS], alone or behind an enclosing-type name taken from that
    line or from a line before it. *)
Definition bitflags_key_source (lines : list string) (k : string) : Prop :=
  exists seen raw rest n,
    lines = seen ++ raw :: rest /\
    skipped (strip raw) = false /\
    contains "BEGIN_BITFLAGS" (strip raw) = true /\
    paren_name (strip raw) = Ok n /\
    (k = n \/
     exists cls, cls <> "" /\ class_source (seen ++ [raw]) cls /\
                 k = (cls ++ "::" ++ n)%string).

(** After the lines [seen], the active enclosing type comes from one of
    them. *)
Definition class_known (seen : list string) (st : scan_state) : Prop :=
  current_class st = "" \/ class_source seen (current_class st).

Lemma class_source_more seen l cls :
  class_source seen cls -> class_source (seen ++ [l]) cls.
Proof.
  intros (raw & Hin & H). exists raw. split; [|assumption].
  apply in_or_app. now left.
Qed.

Lemma class_known_more seen l st :
  class_known seen st -> class_known (seen ++ [l]) st.
Proof.
  intros [H|H]; [now left|right; now apply class_source_more].
Qed.


Lemma bitflags_key_source_more seen l k :
  bitflags_key_source seen k -> bitflags_key_source (seen ++ [l]) k.
Proof.
  intros (s1 & raw & rest & n & -> & H).
  exists s1, raw, (rest ++ [l]), n. split; [|assumption].
  now rewrite <- app_assoc.
Qed.

(** The detection on a scanned line takes the name from that line. *)
Lemma detect_class_known seen st raw st1 :
  skipped (strip raw) = false ->
  class_known seen st ->
  detect_class st (strip raw) = Ok st1 ->
  class_known (seen ++ [raw]) st1.
Proof.
  intros Hs Hk. rewrite detect_class_spec.
  destruct (contains "class" (strip raw) && negb (contains "enum" (strip raw))
            && String.eqb (current_class st) "") eqn:G.
  - destruct (class_of (split (strip raw))) as [[cc|e]|] eqn:C; cbn [bind];
      intros H; try discriminate; injection H as <-.
    + right. cbn [current_class set_class]. exists raw.
      apply andb_prop in G as [G _]. apply andb_prop in G as [_ G].
      apply negb_true_iff in G.
      repeat split; try assumption. apply in_or_app. right. now left.
    + now apply class_known_more.
  - intros H; injection H as <-. now apply class_known_more.
Qed.

Lemma track_brace_class st line :
  current_class (track_brace st line) = current_class st \/
  current_class (track_brace st line) = "".
Proof.
  unfold track_brace.
  destruct (negb _), (contains "{" line), (contains "}" line); cbn; auto;
    destruct (Z.eqb _ _); cbn; auto.
Qed.

Lemma track_brace_known seen st line :
  class_known seen st -> class_known seen (track_brace st line).
Proof.
  intros Hk. unfold class_known.
  destruct (track_brace_class st line) as [-> | ->]; [assumption|now left].
Qed.

Lemma qualified_source seen st t :
  class_known seen st ->
  qualified (current_class st) t = t \/
  exists cls, cls <> "" /\ class_source seen cls /\
              qualified (current_class st) t = (cls ++ "::" ++ t)%string.
Proof.
  intros Hk. unfold qualified.
  destruct (String.eqb (current_class st) "") eqn:E; cbn [negb];
    [now left|].
  apply String.eqb_neq in E. right. exists (current_class st).
  destruct Hk as [Hk|Hk]; [contradiction|]. auto.
Qed.

Lemma scan_invariant_seen (step : scan_state -> string -> result scan_state)
  (P : list string -> scan_state -> Prop) :
  (forall seen st raw st',
     P seen st -> step st raw = Ok st' -> P (seen ++ [raw]) st') ->
  forall lines seen st st',
    P seen st -> scan step st lines = Ok st' -> P (seen ++ lines) st'.
Proof.
  intros Hstep. induction lines as [|l lines IH]; intros seen st st' HP;
    cbn [scan].
  - intros H; injection H as <-. now rewrite app_nil_r.
  - destruct (step st l) as [s1|] eqn:E; cbn [bind]; [|discriminate].
    intros H. replace (seen ++ l :: lines) with ((seen ++ [l]) ++ lines)
      by (now rewrite <- app_assoc).
    apply (IH _ s1); [exact (Hstep _ _ _ _ HP E)|assumption].
Qed.

Lemma enum_line_values lines st raw st' :
  In raw lines ->
  (forall k vs name, In (k, vs) (out st) -> In name vs ->
                     enum_value_source lines name) ->
  enum_line st raw = Ok st' ->
  forall k vs name, In (k, vs) (out st') -> In name vs ->
                    enum_value_source lines name.
Proof.
  intros Hin Hnames. destruct (skipped (strip raw)) eqn:Hs.
  - rewrite (enum_line_skipped _ _ Hs). now intros H; injection H as <-.
  - rewrite (enum_line_scanned _ _ Hs), enum_body_spec.
    destruct (detect_class st (strip raw)) as [st1|] eqn:D; cbn [bind];
      [|discriminate].
    destruct (detect_class_fields _ _ _ D) as (Ho1 & _).
    pose proof (track_brace_out st1 (strip raw)) as Ho2.
    set (st2 := track_brace st1 (strip raw)) in *.
    assert (Hn2 : forall k vs name, In (k, vs) (out st2) -> In name vs ->
                                    enum_value_source lines name)
      by (rewrite Ho2, Ho1; exact Hnames).
    unfold enum_action.
    destruct (contains "enum" (strip raw)) eqn:He.
    + destruct (List.find _ _); intros H; injection H as <-; [|assumption].
      intros k vs name Hk Hv. cbn in Hk.
      apply in_setitem in Hk as [-> | Hk]; [destruct Hv|].
      exact (Hn2 _ _ _ Hk Hv).
    + destruct (contains "}" (strip raw)) eqn:Hb;
        [now intros H; injection H as <-|].
      destruct (negb _); [|now intros H; injection H as <-].
      pose proof (split_tokens (strip raw)) as F.
      destruct (split (strip raw)) as [|t ts] eqn:Hsplit;
        [now intros H; injection H as <-|].
      unfold append_item.
      destruct (lookup _ _) as [v|] eqn:Hl; cbn [bind]; [|discriminate].
      intros H; injection H as <-. intros k vs name Hk Hv. cbn in Hk.
      apply in_setitem in Hk as [-> | Hk]; [|exact (Hn2 _ _ _ Hk Hv)].
      apply in_app_or in Hv as [Hv|[<-|[]]].
      * destruct (lookup_in _ _ _ Hl) as [k' Hk']. exact (Hn2 _ _ _ Hk' Hv).
      * split; [now inversion F|].
        exists raw. repeat split; try assumption.
        unfold first_token. now rewrite Hsplit.
Qed.


Lemma bitflags_line_keys seen st raw st' :
  (class_known seen st /\
   forall k, In k (keys (out st)) -> bitflags_key_source seen k) ->
  bitflags_line st raw = Ok st' ->
  class_known (seen ++ [raw]) st' /\
  forall k, In k (keys (out st')) -> bitflags_key_source (seen ++ [raw]) k.
Proof.
  intros [Hcls Hkeys]. destruct (skipped (strip raw)) eqn:Hs.
  - rewrite (bitflags_line_skipped _ _ Hs). intros H; injection H as <-.
    split; [now apply class_known_more|].
    intros k Hk. now apply bitflags_key_source_more, Hkeys.
  - rewrite (bitflags_line_scanned _ _ Hs), bitflags_body_spec.
    destruct (detect_class st (strip raw)) as [st1|] eqn:D; cbn [bind];
      [|discriminate].
    destruct (detect_class_fields _ _ _ D) as (Ho1 & _).
    pose proof (track_brace_out st1 (strip raw)) as Ho2.
    pose proof (track_brace_known _ _ (strip raw)
                  (detect_class_known seen st raw st1 Hs Hcls D)) as Hc2.
    set (st2 := track_brace st1 (strip raw)) in *.
    assert (Hk2 : forall k, In k (keys (out st2)) ->
                            bitflags_key_source (seen ++ [raw]) k).
    { rewrite Ho2, Ho1. intros k Hk.
      now apply bitflags_key_source_more, Hkeys. }
    intros Hact. destruct (bitflags_action_tracking _ _ _ Hact) as [Hc' _].
    split; [unfold class_known in *; now rewrite Hc'|].
    revert Hact. unfold bitflags_action.
    destruct (contains "BEGIN_BITFLAGS" (strip raw)) eqn:Hb.
    + destruct (paren_name (strip raw)) as [n|] eqn:Hp; cbn [bind];
        [|discriminate].
      intros H; injection H as <-. intros k Hk. cbn in Hk.
      apply keys_setitem_inv in Hk as [-> | Hk]; [|now apply Hk2].
      exists seen, raw, [], n. repeat split; try assumption.
      exact (qualified_source (seen ++ [raw]) st2 n Hc2).
    + destruct (negb (String.eqb (current_enum st2) ""));
        [|now intros H; injection H as <-].
      destruct (contains "END_BITFLAGS" (strip raw));
        [now intros H; injection H as <-|].
      destruct (contains "FLAG" (strip raw));
        [|now intros H; injection H as <-].
      destruct (paren_name (strip raw)) as [n|]; cbn [bind]; [|discriminate].
      destruct (0 <? String.length n)%nat;
        [|now intros H; injection H as <-].
      unfold append_item.
      destruct (lookup _ _) as [v|] eqn:Hl; cbn [bind]; [|discriminate].
      intros H; injection H as <-. intros k Hk. cbn in Hk.
      apply keys_setitem_inv in Hk as [-> | Hk]; [|now apply Hk2].
      apply Hk2, lookup_in_keys. now rewrite Hl.
Qed.

End Provenance.

(** X5: every name in a value list that the enum scanner returns is a token
    (non-empty, free of whitespace): the first token of a scanned line of the
    input that holds neither [enum] nor a closing brace. *)
Theorem X5_enum_values lines d k vs name :
  parse_enum lines = Ok d ->
  In (k, vs) d -> In name vs ->
  enum_value_source lines name.
Proof.
  unfold parse_enum.
  destruct (scan enum_line init_state lines) as [st|] eqn:E; cbn [bind];
    [|discriminate].
  intros H; injection H as <-.
  refine (scan_invariant_in enum_line lines
            (fun st => forall k vs name, In (k, vs) (out st) -> In name vs ->
                                         enum_value_source lines name)
            _ lines init_state st (incl_refl _) _ E k vs name).
  - intros s raw s' Hin HP Hs. exact (enum_line_values lines s raw s' Hin HP Hs).
  - intros k' vs' name' [].
Qed.

Lemma X5_enum_values_witness :
  enum_value_source ["enum Color {"; "  Red = 1,"; "};"] "Red".
Proof.
  apply (X5_enum_values ["enum Color {"; "  Red = 1,"; "};"]
           [("Color", ["Red"])] "Color" ["Red"] "Red").
  - reflexivity.
  - left; reflexivity.
  - left; reflexivity.
Defined.



(** X7: every key of the mapping that the bitflag scanner returns is the
    trimmed text between the first [(] and the first [)] of a scanned line of
    the input that holds [BEGIN_BITFLAGS], alone or behind [Outer::], where
    [Outer] is a non-empty enclosing-type name taken from that line or from a
    line of the input before it: the token after the first token [class], or
    the one after [SDLPP_EXPORT], of a scanned line that does not hold
    [enum]. *)
Theorem X7_bitflags_keys lines d k :
  parse_bitflags lines = Ok d ->
  In k (keys d) ->
  bitflags_key_source lines k.
Proof.
  unfold parse_bitflags.
  destruct (scan bitflags_line init_state lines) as [st|] eqn:E; cbn [bind];
    [|discriminate].
  intros H; injection H as <-.
  refine (proj2 (scan_invariant_seen bitflags_line
            (fun seen st => class_known seen st /\
               forall k, In k (keys (out st)) -> bitflags_key_source seen k)
            bitflags_line_keys lines [] init_state st _ E) k).
  split; [now left|intros k' []].
Qed.

Lemma X7_bitflags_keys_witness :
  bitflags_key_source
    ["class Outer {"; "BEGIN_BITFLAGS( Mask )"; "FLAG(A)"; "END_BITFLAGS"; "};"]
    "Outer::Mask".
Proof.
  apply (X7_bitflags_keys
           ["class Outer {"; "BEGIN_BITFLAGS( Mask )"; "FLAG(A)";
            "END_BITFLAGS"; "};"]
           [("Outer::Mask", ["A"])]).
  - reflexivity.
  - left; reflexivity.
Defined.

(** ** Lines that leave the mapping alone; the order of the keys *)

Section Neutral.

(** A line without [enum], met while no enum is open, changes neither the
    mapping nor the open enum. *)
Lemma enum_line_idle st raw st' :
  current_enum st = "" ->
  contains "enum" (strip raw) = false ->
  enum_line st raw = Ok st' ->
  out st' = out st /\ current_enum st' = "".
Proof.
  intros Hidle He. destruct (skipped (strip raw)) eqn:Hs.
  - rewrite (enum_line_skipped _ _ Hs). intros H; injection H as <-. auto.
  - rewrite (enum_line_scanned _ _ Hs), enum_body_spec.
    destruct (detect_class st (strip raw)) as [st1|] eqn:D; cbn [bind];
      [|discriminate].
    destruct (detect_class_fields _ _ _ D) as (Ho1 & He1 & _).
    pose proof (track_brace_out st1 (strip raw)) as Ho2.
    pose proof (track_brace_enum st1 (strip raw)) as He2.
    set (st2 := track_brace st1 (strip raw)) in *.
    unfold enum_action. rewrite He.
    destruct (contains "}" (strip raw)).
    + intros H; injection H as <-. cbn. split; [congruence|reflexivity].
    + rewrite He2, He1, Hidle. cbn. intros H; injection H as <-.
      split; congruence.
Qed.

(** A line without [BEGIN_BITFLAGS], met while no set is open, changes
    neither the mapping nor the open set. *)
Lemma bitflags_line_idle st raw st' :
  current_enum st = "" ->
  contains "BEGIN_BITFLAGS" (strip raw) = false ->
  bitflags_line st raw = Ok st' ->
  out st' = out st /\ current_enum st' = "".
Proof.
  intros Hidle Hb. destruct (skipped (strip raw)) eqn:Hs.
  - rewrite (bitflags_line_skipped _ _ Hs). intros H; injection H as <-. auto.
  - rewrite (bitflags_line_scanned _ _ Hs), bitflags_body_spec.
    destruct (detect_class st (strip raw)) as [st1|] eqn:D; cbn [bind];
      [|discriminate].
    destruct (detect_class_fields _ _ _ D) as (Ho1 & He1 & _).
    pose proof (track_brace_out st1 (strip raw)) as Ho2.
    pose proof (track_brace_enum st1 (strip raw)) as He2.
    set (st2 := track_brace st1 (strip raw)) in *.
    unfold bitflags_action. rewrite Hb, He2, He1, Hidle. cbn.
    intros H; injection H as <-. split; congruence.
Qed.

Lemma scan_idle step (mark : string) :
  (forall st raw st',
     current_enum st = "" -> contains mark (strip raw) = false ->
     step st raw = Ok st' -> out st' = out st /\ current_enum st' = "") ->
  forall lines st st',
    current_enum st = "" ->
    forallb (fun raw => negb (contains mark (strip raw))) lines = true ->
    scan step st lines = Ok st' ->
    out st' = out st /\ current_enum st' = "".
Proof.
  intros Hstep. induction lines as [|l lines IH]; intros st st' Hidle Hall;
    cbn [scan].
  - intros H; injection H as <-. auto.
  - cbn [forallb] in Hall. apply andb_prop in Hall as [Hl Hall].
    apply negb_true_iff in Hl.
    destruct (step st l) as [s1|] eqn:E; cbn [bind]; [|discriminate].
    destruct (Hstep _ _ _ Hidle Hl E) as [Ho He].
    intros H. destruct (IH s1 st' He Hall H) as [Ho' He'].
    split; congruence.
Qed.

(** The keys after a line are the keys before it, with at most one more key
    at the end. *)
Lemma step_keys_extend step :
  (forall st raw st', step st raw = Ok st' ->
     out st' = out st \/ exists k v, out st' = setitem k v (out st)) ->
  forall lines st st',
    scan step st lines = Ok st' ->
    exists more, keys (out st') = keys (out st) ++ more.
Proof.
  intros Hstep. induction lines as [|l lines IH]; intros st st'; cbn [scan].
  - intros H; injection H as <-. exists []. now rewrite app_nil_r.
  - destruct (step st l) as [s1|] eqn:E; cbn [bind]; [|discriminate].
    intros H. destruct (IH _ _ H) as [more Hm]. rewrite Hm.
    destruct (Hstep _ _ _ E) as [-> | (k & v & ->)]; [eauto|].
    destruct (in_dec string_dec k (keys (out st))) as [Hin|Hout].
    + rewrite keys_setitem_in by assumption. eauto.
    + rewrite keys_setitem_new by assumption. rewrite <- app_assoc. eauto.
Qed.

End Neutral.

(** X8: a blank line and a line that holds [using] can be taken out of the
    input without changing what either scanner returns, a fault included. *)
Theorem X8_skipped_lines pre raw post :
  skipped (strip raw) = true ->
  parse_enum (pre ++ raw :: post) = parse_enum (pre ++ post) /\
  parse_bitflags (pre ++ raw :: post) = parse_bitflags (pre ++ post).
Proof.
  intros Hs. unfold parse_enum, parse_bitflags. rewrite !scan_app. split.
  - destruct (scan enum_line init_state pre) as [st|]; cbn [bind scan];
      [|reflexivity].
    now rewrite (enum_line_skipped _ _ Hs).
  - destruct (scan bitflags_line init_state pre) as [st|]; cbn [bind scan];
      [|reflexivity].
    now rewrite (bitflags_line_skipped _ _ Hs).
Qed.

Lemma X8_skipped_lines_witness :
  parse_enum (["enum A {"] ++ "using T = int;" :: ["x"; "}"]) =
    parse_enum (["enum A {"] ++ ["x"; "}"]) /\
  parse_bitflags (["enum A {"] ++ "using T = int;" :: ["x"; "}"]) =
    parse_bitflags (["enum A {"] ++ ["x"; "}"]).
Proof.
  apply (X8_skipped_lines ["enum A {"] "using T = int;" ["x"; "}"]).
  reflexivity.
Defined.

(** X9: when the scan of [pre] ends with no enum open, lines without the
    substring [enum] that follow add nothing: if the enum scanner returns a
    mapping for [pre ++ lines], it is the mapping it returns for [pre]. *)
Theorem X9_enum_outside pre lines st d :
  scan enum_line init_state pre = Ok st ->
  current_enum st = "" ->
  forallb (fun raw => negb (contains "enum" (strip raw))) lines = true ->
  parse_enum (pre ++ lines) = Ok d ->
  parse_enum pre = Ok d.
Proof.
  intros Hpre Hidle Hall. unfold parse_enum. rewrite scan_app, Hpre.
  cbn [bind].
  destruct (scan enum_line st lines) as [st'|] eqn:E; cbn [bind];
    [|discriminate].
  intros H; injection H as <-.
  now destruct (scan_idle enum_line "enum" enum_line_idle lines st st'
                  Hidle Hall E) as [-> _].
Qed.

Lemma X9_enum_outside_witness :
  parse_enum ["enum A {"; "x"; "}"] = Ok [("A", ["x"])].
Proof.
  apply (X9_enum_outside ["enum A {"; "x"; "}"] ["int y;"; "struct S {"; "}"]
           {| out := [("A", ["x"])]; current_enum := ""; current_class := "";
              brace := 0 |});
    reflexivity.
Defined.

(** X10: when the scan of [pre] ends with no bitflag set open, lines without
    [BEGIN_BITFLAGS] that follow add nothing, [FLAG] and [END_BITFLAGS] lines
    included: if the bitflag scanner returns a mapping for [pre ++ lines], it
    is the mapping it returns for [pre]. *)
Theorem X10_bitflags_outside pre lines st d :
  scan bitflags_line init_state pre = Ok st ->
  current_enum st = "" ->
  forallb (fun raw => negb (contains "BEGIN_BITFLAGS" (strip raw))) lines
    = true ->
  parse_bitflags (pre ++ lines) = Ok d ->
  parse_bitflags pre = Ok d.
Proof.
  intros Hpre Hidle Hall. unfold parse_bitflags. rewrite scan_app, Hpre.
  cbn [bind].
  destruct (scan bitflags_line st lines) as [st'|] eqn:E; cbn [bind];
    [|discriminate].
  intros H; injection H as <-.
  now destruct (scan_idle bitflags_line "BEGIN_BITFLAGS" bitflags_line_idle
                  lines st st' Hidle Hall E) as [-> _].
Qed.

Lemma X10_bitflags_outside_witness :
  parse_bitflags ["BEGIN_BITFLAGS(M)"; "FLAG(A)"; "END_BITFLAGS"] =
    Ok [("M", ["A"])].
Proof.
  apply (X10_bitflags_outside
           ["BEGIN_BITFLAGS(M)"; "FLAG(A)"; "END_BITFLAGS"]
           ["FLAG(B)"; "FLAG C"; "END_BITFLAGS"]
           {| out := [("M", ["A"])]; current_enum := ""; current_class := "";
              brace := 0 |});
    reflexivity.
Defined.

(** X11: the keys keep the order of their first declaration: the keys of the
    mapping returned for [pre ++ post] start with the keys of the mapping
    returned for [pre], in the same order, for either scanner. *)
Theorem X11_key_order pre post :
  (forall d1 d2,
     parse_enum pre = Ok d1 -> parse_enum (pre ++ post) = Ok d2 ->
     exists more, keys d2 = keys d1 ++ more) /\
  (forall d1 d2,
     parse_bitflags pre = Ok d1 -> parse_bitflags (pre ++ post) = Ok d2 ->
     exists more, keys d2 = keys d1 ++ more).
Proof.
  split; intros d1 d2; unfold parse_enum, parse_bitflags; rewrite scan_app.
  - destruct (scan enum_line init_state pre) as [st|]; cbn [bind];
      [|discriminate].
    intros H; injection H as <-.
    destruct (scan enum_line st post) as [st'|] eqn:E; cbn [bind];
      [|discriminate].
    intros H; injection H as <-.
    exact (step_keys_extend enum_line enum_line_out post st st' E).
  - destruct (scan bitflags_line init_state pre) as [st|]; cbn [bind];
      [|discriminate].
    intros H; injection H as <-.
    destruct (scan bitflags_line st post) as [st'|] eqn:E; cbn [bind];
      [|discriminate].
    intros H; injection H as <-.
    exact (step_keys_extend bitflags_line bitflags_line_out post st st' E).
Qed.

Lemma X11_key_order_witness :
  exists more,
    keys [("A", ["y"]); ("B", [])] = keys [("A", ["x"]); ("B", [])] ++ more.
Proof.
  apply (proj1 (X11_key_order ["enum A {"; "x"; "}"; "enum B {"; "}"]
                              ["enum A {"; "y"; "}"])); reflexivity.
Defined.

(** X12: in both scanners the depth is 0 whenever no enclosing type is
    active, after any number of lines: the count for an enclosing type always
    starts from 0. *)
Theorem X12_depth_reset lines st :
  scan enum_line init_state lines = Ok st \/
  scan bitflags_line init_state lines = Ok st ->
  current_class st = "" -> brace st = 0%Z.
Proof.
  intros [H|H].
  - exact (scan_invariant enum_line depth_reset
             (tracks_depth_reset enum_line enum_line_tracks)
             lines init_state st (fun _ => eq_refl) H).
  - exact (scan_invariant bitflags_line depth_reset
             (tracks_depth_reset bitflags_line bitflags_line_tracks)
             lines init_state st (fun _ => eq_refl) H).
Qed.

Lemma X12_depth_reset_witness :
  brace {| out := []; current_enum := ""; current_class := "";
           brace := 0 |} = 0%Z.
Proof.
  apply (X12_depth_reset ["class Outer {"; "void f() {"; "}"; "};"]).
  - left; reflexivity.
  - reflexivity.
Defined.

(** ** The two scans of one input; the script *)

Section TwoScans.

Lemma detect_class_raise_sim a b line e :
  current_class a = current_class b ->
  detect_class a line = Raise e -> detect_class b line = Raise e.
Proof.
  intros Hc. rewrite !detect_class_spec, Hc.
  destruct (_ && _ && _); [|discriminate].
  destruct (class_of (split line)) as [[cc|e1]|]; cbn [bind]; intros H;
    try discriminate; exact H.
Qed.

(** Both scanners move the enclosing type and the depth in the same way. *)
Lemma lines_in_step a b raw a' b' :
  current_class a = current_class b -> brace a = brace b ->
  enum_line a raw = Ok a' -> bitflags_line b raw = Ok b' ->
  current_class a' = current_class b' /\ brace a' = brace b'.
Proof.
  intros Hc Hb Ha Hbl.
  destruct (enum_line_tracks _ _ _ Ha) as [[Hs ->]|(Hs & a1 & Da & Ca & Ba)];
    destruct (bitflags_line_tracks _ _ _ Hbl)
      as [[Hs' ->]|(Hs' & b1 & Db & Cb & Bb)]; try congruence; auto.
  destruct (detect_class_sim a b _ a1 Hc Da) as (b1' & Db' & Hc1).
  rewrite Db in Db'; injection Db' as <-.
  destruct (detect_class_fields _ _ _ Da) as (_ & _ & Ba1).
  destruct (detect_class_fields _ _ _ Db) as (_ & _ & Bb1).
  destruct (track_brace_sim a1 b1 (strip raw) Hc1) as [T1 T2];
    [congruence|].
  split; congruence.
Qed.

(** Where the bitflag scan gets through, the enum scan gets through. *)
Lemma scans_in_step lines : forall a b b',
  wf a ->
  current_class a = current_class b -> brace a = brace b ->
  scan bitflags_line b lines = Ok b' ->
  exists a', scan enum_line a lines = Ok a'.
Proof.
  induction lines as [|l lines IH]; intros a b b' Hwf Hc Hb; cbn [scan].
  - eauto.
  - destruct (bitflags_line b l) as [b1|] eqn:Eb; cbn [bind]; [|discriminate].
    intros Hrest.
    destruct (enum_line a l) as [a1|e] eqn:Ea; cbn [bind].
    + destruct (lines_in_step a b l a1 b1 Hc Hb Ea Eb) as [Hc1 Hb1].
      exact (IH a1 b1 b' (enum_line_wf _ _ _ Hwf Ea) Hc1 Hb1 Hrest).
    + exfalso. destruct (enum_line_raise _ _ _ Hwf Ea) as [Hs Hd].
      rewrite (bitflags_line_scanned _ _ Hs), bitflags_body_spec in Eb.
      now rewrite (detect_class_raise_sim a b _ e Hc Hd) in Eb.
Qed.

Lemma scans_agree lines d2 :
  parse_bitflags lines = Ok d2 -> exists d, parse_enum lines = Ok d.
Proof.
  unfold parse_bitflags, parse_enum.
  destruct (scan bitflags_line init_state lines) as [b'|] eqn:E; cbn [bind];
    [|discriminate].
  intros _.
  destruct (scans_in_step lines init_state init_state b' wf_init
              eq_refl eq_refl E) as [a' ->].
  cbn [bind]; eauto.
Qed.

End TwoScans.

(** X13: on one input, whenever the bitflag scanner returns a mapping so does
    the enum scanner: every fault of the enum scan (an enclosing-type line
    that ends after [class]) is a fault of the bitflag scan too. *)
Theorem X13_enum_scan_follows lines d2 :
  parse_bitflags lines = Ok d2 -> exists d, parse_enum lines = Ok d.
Proof. apply scans_agree. Qed.

Lemma X13_enum_scan_follows_witness :
  exists d, parse_enum ["class Outer {"; "BEGIN_BITFLAGS(M)"; "FLAG(A)";
                        "END_BITFLAGS"; "};"] = Ok d.
Proof.
  apply (X13_enum_scan_follows
           ["class Outer {"; "BEGIN_BITFLAGS(M)"; "FLAG(A)"; "END_BITFLAGS";
            "};"] [("Outer::M", ["A"])]).
  reflexivity.
Defined.

(** X14: the script prints exactly when the bitflag scan of the input
    returns a mapping: it then appends to the standard output the blocks of
    the enum mapping, in key order with the enum's own type as element type,
    followed by the blocks of the bitflag mapping, in key order with
    [::flag_type] as element type. When the bitflag scan faults, the script
    faults. *)
Theorem X14_main lines stdout :
  (forall d2,
     parse_bitflags lines = Ok d2 ->
     exists d,
       parse_enum lines = Ok d /\
       main lines stdout =
         Ok ((stdout ++ blocks d (keys d) false)
             ++ blocks d2 (keys d2) true)%string) /\
  (forall e,
     parse_bitflags lines = Raise e -> exists e', main lines stdout = Raise e').
Proof.
  split.
  - intros d2 H2. destruct (scans_agree lines d2 H2) as [d Hd].
    exists d. split; [assumption|]. unfold main. rewrite Hd, H2. cbn [bind].
    unfold create_enum.
    rewrite (emit_loop_blocks d false (keys d) (incl_refl _)). cbn [bind].
    apply (emit_loop_blocks d2 true (keys d2) (incl_refl _)).
  - intros e H2. unfold main. rewrite H2.
    destruct (parse_enum lines); cbn [bind]; eauto.
Qed.

Lemma X14_main_witness :
  exists d,
    parse_enum ["enum A {"; "x"; "}"; "BEGIN_BITFLAGS(M)"; "FLAG(f)";
                "END_BITFLAGS"] = Ok d /\
    main ["enum A {"; "x"; "}"; "BEGIN_BITFLAGS(M)"; "FLAG(f)";
          "END_BITFLAGS"] "" =
      Ok (("" ++ blocks d (keys d) false)
          ++ blocks [("M", ["f"])] (keys [("M", ["f"])]) true)%string.
Proof.
  apply (proj1 (X14_main ["enum A {"; "x"; "}"; "BEGIN_BITFLAGS(M)";
                          "FLAG(f)"; "END_BITFLAGS"] "")).
  reflexivity.
Defined.

(** ** The sanitized name; emission of a joined mapping; trimmed names *)

Section EmitterFacts.

Definition starts_colon (s : string) : bool :=
  match s with
  | String c _ => Ascii.eqb c ":"
  | EmptyString => false
  end.

Lemma prefix_sep s :
  prefix "::" s =
  match s with
  | String c s' => Ascii.eqb c ":" && starts_colon s'
  | EmptyString => false
  end.
Proof.
  destruct s as [|c [|d s'']]; cbn [prefix starts_colon]; [reflexivity| |].
  - destruct (ascii_dec ":" c) as [<-|n]; [reflexivity|].
    symmetry. apply andb_false_intro1, Ascii.eqb_neq. congruence.
  - destruct (ascii_dec ":" c) as [<-|n].
    + destruct (ascii_dec ":" d) as [<-|n'].
      * now destruct s''.
      * symmetry. apply andb_false_intro2, Ascii.eqb_neq. congruence.
    + symmetry. apply andb_false_intro1, Ascii.eqb_neq. congruence.
Qed.

Lemma contains_sep_cons c s :
  contains "::" (String c s) =
  (Ascii.eqb c ":" && starts_colon s) || contains "::" s.
Proof.
  unfold contains at 1; fold contains. now rewrite prefix_sep.
Qed.

(** A text that does not start with a colon is replaced into one that does
    not either. *)
Lemma replace_fuel_head fuel s :
  String.length s <= fuel ->
  starts_colon s = false ->
  starts_colon (replace_fuel fuel "::" "_" s) = false.
Proof.
  destruct fuel as [|fuel]; destruct s as [|c s]; cbn [replace_fuel];
    try reflexivity.
  - cbn [String.length]. lia.
  - intros _ Hc. rewrite prefix_sep. cbn [starts_colon] in Hc. rewrite Hc.
    cbn [andb]. cbn [starts_colon]. exact Hc.
Qed.

Lemma replace_fuel_no_sep fuel : forall s,
  String.length s <= fuel ->
  contains "::" (replace_fuel fuel "::" "_" s) = false.
Proof.
  induction fuel as [|fuel IH]; intros s Hlen.
  - destruct s; [reflexivity|cbn [String.length] in Hlen; lia].
  - destruct s as [|c s]; [reflexivity|]. cbn [replace_fuel].
    cbn [String.length] in Hlen. rewrite prefix_sep.
    destruct (Ascii.eqb c ":" && starts_colon s) eqn:E.
    + apply andb_prop in E as [_ E]. destruct s as [|d s'']; [discriminate|].
      change (drop (String.length "::") (String c (String d s''))) with s''.
      change ("_" ++ replace_fuel fuel "::" "_" s'')%string
        with (String "_" (replace_fuel fuel "::" "_" s'')).
      rewrite contains_sep_cons. cbn [String.length] in Hlen.
      rewrite IH by lia. reflexivity.
    + rewrite contains_sep_cons, (IH s) by lia. rewrite orb_false_r.
      apply andb_false_iff in E as [E|E]; [now rewrite E|].
      rewrite (replace_fuel_head fuel s) by (assumption || lia).
      apply andb_false_r.
Qed.

Lemma replace_fuel_same fuel : forall s,
  contains "::" s = false -> replace_fuel fuel "::" "_" s = s.
Proof.
  induction fuel as [|fuel IH]; intros s H; [reflexivity|].
  destruct s as [|c s]; [reflexivity|]. cbn [replace_fuel].
  rewrite contains_sep_cons in H. apply orb_false_elim in H as [Hp Hs].
  rewrite prefix_sep, Hp. now rewrite (IH s Hs).
Qed.

Lemma lookup_app_l k d1 d2 :
  In k (keys d1) -> lookup k (d1 ++ d2) = lookup k d1.
Proof.
  induction d1 as [|[k' v'] d1 IH]; cbn; [intros []|].
  destruct (String.eqb k k') eqn:E; [reflexivity|].
  intros [H|H]; [subst; now rewrite String.eqb_refl in E|now apply IH].
Qed.

Lemma lookup_app_r k d1 d2 :
  ~ In k (keys d1) -> lookup k (d1 ++ d2) = lookup k d2.
Proof.
  induction d1 as [|[k' v'] d1 IH]; cbn; [reflexivity|].
  intros H. destruct (String.eqb k k') eqn:E.
  - apply String.eqb_eq in E; subst. elim H; now left.
  - apply IH; intros H'; apply H; now right.
Qed.

Lemma blocks_app enums ks1 ks2 is_bf :
  blocks enums (ks1 ++ ks2) is_bf =
  (blocks enums ks1 is_bf ++ blocks enums ks2 is_bf)%string.
Proof.
  induction ks1 as [|k ks1 IH]; [reflexivity|].
  change ((k :: ks1) ++ ks2) with (k :: (ks1 ++ ks2)). cbn [blocks].
  now rewrite IH, !append_assoc.
Qed.

Lemma blocks_ext d d' ks is_bf :
  (forall k, In k ks -> lookup k d = lookup k d') ->
  blocks d ks is_bf = blocks d' ks is_bf.
Proof.
  induction ks as [|k ks IH]; intros H; cbn [blocks]; [reflexivity|].
  unfold value_of. rewrite (H k) by now left.
  rewrite IH; [reflexivity|]. intros k' Hk'. apply H. now right.
Qed.

Lemma rstrip_idem t : rstrip (rstrip t) = rstrip t.
Proof.
  induction t as [|c t IH]; cbn [rstrip]; [reflexivity|].
  destruct (is_space c && is_empty (rstrip t)) eqn:E; [reflexivity|].
  cbn [rstrip]. now rewrite IH, E.
Qed.

Lemma strip_idem s : strip (strip s) = strip s.
Proof.
  unfold strip.
  assert (H : lstrip (rstrip (lstrip s)) = rstrip (lstrip s)).
  { destruct (rstrip (lstrip s)) as [|c r] eqn:E; [reflexivity|].
    destruct (rstrip_head _ _ _ E) as [s' Hs'].
    cbn [lstrip]. now rewrite (lstrip_head _ _ _ Hs'). }
  rewrite H. apply rstrip_idem.
Qed.

Lemma paren_name_trimmed line n : paren_name line = Ok n -> strip n = n.
Proof.
  unfold paren_name.
  destruct (index "(" line); cbn [bind]; [|discriminate].
  destruct (index ")" line); cbn [bind]; [|discriminate].
  intros H; injection H as <-. apply strip_idem.
Qed.

End EmitterFacts.

(** X15: the name the emitter builds for the array of a mapping key, the key
    with every [::] replaced by [_], never holds [::]. *)
Theorem X15_sanitized_name enum :
  contains "::" (replace "::" "_" enum) = false.
Proof. unfold replace. now apply replace_fuel_no_sep. Qed.

(** X16: the emitter leaves a key without [::] (an enum outside any enclosing
    type) as it is when it builds the name of the array. *)
Theorem X16_unqualified_name enum :
  contains "::" enum = false -> replace "::" "_" enum = enum.
Proof. unfold replace. apply replace_fuel_same. Qed.

Lemma X16_unqualified_name_witness : replace "::" "_" "Color" = "Color".
Proof. apply (X16_unqualified_name "Color"). reflexivity. Defined.

(** X17: emitting two mappings without a common key one after the other
    prints the same text as emitting the mapping that holds the entries of
    the first followed by the entries of the second. *)
Theorem X17_emit_joined d1 d2 is_bf stdout :
  NoDup (keys (d1 ++ d2)) ->
  (stdout1 <- create_enum d1 is_bf stdout ;; create_enum d2 is_bf stdout1) =
  create_enum (d1 ++ d2) is_bf stdout.
Proof.
  intros Hnd. unfold create_enum.
  rewrite !emit_loop_blocks by apply incl_refl. cbn [bind].
  rewrite emit_loop_blocks by apply incl_refl.
  unfold keys in *. rewrite map_app in *. fold (keys d1) (keys d2) in *.
  rewrite blocks_app, append_assoc.
  rewrite (blocks_ext (d1 ++ d2) d1 (keys d1)), (blocks_ext (d1 ++ d2) d2 (keys d2)).
  - reflexivity.
  - intros k Hk. apply lookup_app_r. intros Hk1.
    revert Hnd Hk Hk1. generalize (keys d2) as l2. generalize (keys d1) as l1.
    induction l1 as [|x l1 IH]; intros l2 Hnd Hk Hk1; [destruct Hk1|].
    cbn [app] in Hnd. apply NoDup_cons_iff in Hnd as [Hx Hnd].
    destruct Hk1 as [->|Hk1].
    + apply Hx. apply in_or_app. now right.
    + exact (IH l2 Hnd Hk Hk1).
  - intros k Hk. now apply lookup_app_l.
Qed.

Lemma X17_emit_joined_witness :
  (stdout1 <- create_enum [("A", ["x"])] false "" ;;
   create_enum [("B", ["y"; "z"])] false stdout1) =
  create_enum ([("A", ["x"])] ++ [("B", ["y"; "z"])]) false "".
Proof.
  apply (X17_emit_joined [("A", ["x"])] [("B", ["y"; "z"])] false "").
  repeat constructor; cbn; intuition discriminate.
Defined.

(** X18: every flag name in a value list that the bitflag scanner returns is
    trimmed: it has no whitespace at either end, and it is not empty. *)
Theorem X18_flag_names_trimmed lines d k vs name :
  parse_bitflags lines = Ok d ->
  In (k, vs) d -> In name vs ->
  strip name = name /\ name <> "".
Proof.
  unfold parse_bitflags.
  destruct (scan bitflags_line init_state lines) as [st|] eqn:E; cbn [bind];
    [|discriminate].
  intros H Hk Hv; injection H as <-.
  assert (Hsrc : flag_source lines name).
  { apply (bitflags_scan_names lines lines init_state st (incl_refl _))
      with (k := k) (vs := vs); try assumption.
    intros k' vs' name' []. }
  destruct Hsrc as (Hne & raw & _ & _ & _ & _ & _ & Hp).
  split; [exact (paren_name_trimmed _ _ Hp)|assumption].
Qed.

Lemma X18_flag_names_trimmed_witness :
  strip "B" = "B" /\ "B" <> "".
Proof.
  apply (X18_flag_names_trimmed
           ["BEGIN_BITFLAGS(M)"; "  FLAG(  B  )  "; "END_BITFLAGS"]
           [("M", ["B"])] "M" ["B"] "B").
  - reflexivity.
  - left; reflexivity.
  - left; reflexivity.
Defined.
